(** * Helpdesk ticket tracker: the ticket model and its controller

    A shallow embedding of the model and controller layers of [src/App.tsx]
    ([TicketsModel], [TicketsController], [StorageService]) and the
    properties of the status workflow, the statistics, the comment and
    delete operations and the change notifier.

    Conventions of the embedding.
    - A JavaScript [number] holding a timestamp is a [Z]; a length or a
      count is a [nat].
    - A [string] is a Rocq [string]; [toLowerCase] acts on the ASCII
      letters.
    - An optional property ([assignedTo?], [resolvedAt?]) is an [option];
      [None] is [undefined].
    - The objects are kept in one [World]: the model's array, the
      controller's listener set, the browser's clock, random source and
      session storage.  The methods are computations in the state monad
      [M] over it.  The tickets of the array are distinct objects with
      distinct comment arrays, as [JSON.parse], [DEFAULT_TICKETS] and
      [createTicket] build them, so an array of records stands for them.
    - A listener is known by the identity of its function object; calling
      it is recorded in the world ([invoked]) and does not call back into
      the controller.
    - The array the constructor receives ([initialData] or the default
      tickets) is the [tickets] of the first world.  A write to the session
      storage succeeds in the browser; the source catches and logs a
      failing one, which changes nothing else. *)

From Stdlib Require Import ZArith QArith String Ascii List.
From stdpp Require Import base decidable option list strings pretty sorting.

Local Open Scope Z_scope.
Local Open Scope nat_scope.
Local Open Scope string_scope.
Local Open Scope list_scope.
Local Open Scope stdpp_scope.

(** ** Types and interfaces *)

Inductive TicketStatus := open | in_progress | waiting | resolved | closed.
Inductive TicketPriority := low | medium | high | urgent.
Inductive TicketCategory := technical | billing | account | feature | bug | other.

#[global] Instance TicketStatus_eq_dec : EqDecision TicketStatus.
Proof. solve_decision. Defined.
#[global] Instance TicketPriority_eq_dec : EqDecision TicketPriority.
Proof. solve_decision. Defined.
#[global] Instance TicketCategory_eq_dec : EqDecision TicketCategory.
Proof. solve_decision. Defined.

Record Comment := mkComment {
  c_id : string;
  c_ticketId : string;
  c_author : string;
  c_content : string;
  c_isInternal : bool;
  c_timestamp : Z
}.

Record Ticket := mkTicket {
  id : string;
  title : string;
  description : string;
  category : TicketCategory;
  priority : TicketPriority;
  status : TicketStatus;
  author : string;
  assignedTo : option string;
  createdAt : Z;
  updatedAt : Z;
  resolvedAt : option Z;
  comments : list Comment
}.

(** [Omit<Ticket, 'id' | 'createdAt' | 'updatedAt' | 'comments'>] *)
Record TicketDraft := mkTicketDraft {
  d_title : string;
  d_description : string;
  d_category : TicketCategory;
  d_priority : TicketPriority;
  d_status : TicketStatus;
  d_author : string;
  d_assignedTo : option string;
  d_resolvedAt : option Z
}.

(** [Partial<Ticket>]: [None] is a property the object does not have.  For
    the two optional properties [Some None] is the property present and
    [undefined]. *)
Record PartialTicket := mkPartialTicket {
  u_id : option string;
  u_title : option string;
  u_description : option string;
  u_category : option TicketCategory;
  u_priority : option TicketPriority;
  u_status : option TicketStatus;
  u_author : option string;
  u_assignedTo : option (option string);
  u_createdAt : option Z;
  u_updatedAt : option Z;
  u_resolvedAt : option (option Z);
  u_comments : option (list Comment)
}.

(** [Omit<Comment, 'id' | 'ticketId' | 'timestamp'>] *)
Record CommentDraft := mkCommentDraft {
  cd_author : string;
  cd_content : string;
  cd_isInternal : bool
}.

(** A listener [() => void], by the identity of its function object. *)
Definition Listener := nat.

(** ** The world and its monad *)

Record World := mkWorld {
  (** [TicketsModel.tickets] *)
  tickets : list Ticket;
  (** [TicketsController.listeners], a [Set] in insertion order; it holds
      a listener once ([NoDup]) *)
  listeners : list Listener;
  (** the listeners called so far, oldest first *)
  invoked : list Listener;
  (** [typeof window !== 'undefined'] *)
  isClient : bool;
  (** [sessionStorage]'s entry ['tickets_data'], as the value its JSON text
      holds *)
  stored_tickets : option (list Ticket);
  (** the value of the n-th [Date.now()] *)
  clock : nat → Z;
  clock_reads : nat;
  (** [Math.random().toString(36).substr(2, 9)] of the n-th [Math.random()] *)
  entropy : nat → string;
  entropy_reads : nat
}.

Definition M (A : Type) : Type := World → A * World.

#[global] Instance M_ret : MRet M := λ A (a : A) w, (a, w).
#[global] Instance M_bind : MBind M :=
  λ A B (f : A → M B) (m : M A) w, let (a, w') := m w in f a w'.

Definition gets {A} (f : World → A) : M A := λ w, (f w, w).
Definition modify (f : World → World) : M unit := λ w, (tt, f w).

Definition set_tickets (ts : list Ticket) (w : World) : World :=
  mkWorld ts (listeners w) (invoked w) (isClient w) (stored_tickets w)
          (clock w) (clock_reads w) (entropy w) (entropy_reads w).
Definition set_listeners (ls : list Listener) (w : World) : World :=
  mkWorld (tickets w) ls (invoked w) (isClient w) (stored_tickets w)
          (clock w) (clock_reads w) (entropy w) (entropy_reads w).
Definition set_invoked (ls : list Listener) (w : World) : World :=
  mkWorld (tickets w) (listeners w) ls (isClient w) (stored_tickets w)
          (clock w) (clock_reads w) (entropy w) (entropy_reads w).
Definition set_stored_tickets (s : option (list Ticket)) (w : World) : World :=
  mkWorld (tickets w) (listeners w) (invoked w) (isClient w) s
          (clock w) (clock_reads w) (entropy w) (entropy_reads w).

Definition set_clock_reads (n : nat) (w : World) : World :=
  mkWorld (tickets w) (listeners w) (invoked w) (isClient w) (stored_tickets w)
          (clock w) n (entropy w) (entropy_reads w).
Definition set_entropy_reads (n : nat) (w : World) : World :=
  mkWorld (tickets w) (listeners w) (invoked w) (isClient w) (stored_tickets w)
          (clock w) (clock_reads w) (entropy w) n.

(** [Date.now()] *)
Definition Date_now : M Z := λ w,
  (clock w (clock_reads w), set_clock_reads (S (clock_reads w)) w).

(** [Math.random().toString(36).substr(2, 9)] *)
Definition Math_random_suffix : M string := λ w,
  (entropy w (entropy_reads w), set_entropy_reads (S (entropy_reads w)) w).

(** ** JavaScript built-ins the model uses *)

(** The truth value of an optional number: [undefined] and [0] are falsy. *)
Definition truthy (n : option Z) : bool :=
  match n with
  | None => false
  | Some z => negb (z =? 0)%Z
  end.

Definition toLowerCase_ascii (c : ascii) : ascii :=
  let n := nat_of_ascii c in
  if (65 <=? n)%nat && (n <=? 90)%nat then ascii_of_nat (n + 32) else c.

Fixpoint toLowerCase (s : string) : string :=
  match s with
  | EmptyString => EmptyString
  | String c s' => String (toLowerCase_ascii c) (toLowerCase s')
  end.

(** [s.includes(term)] *)
Fixpoint includes (s term : string) : bool :=
  String.prefix term s ||
  match s with
  | EmptyString => false
  | String _ s' => includes s' term
  end.

(** [Array.prototype.sort] with a comparator: a stable insertion sort. *)
Fixpoint sort_insert {A} (cmp : A → A → Z) (x : A) (l : list A) : list A :=
  match l with
  | [] => [x]
  | y :: l' => if (cmp x y <=? 0)%Z then x :: y :: l' else y :: sort_insert cmp x l'
  end.

Definition Array_sort {A} (cmp : A → A → Z) (l : list A) : list A :=
  foldr (sort_insert cmp) [] l.

(** [Set.prototype.add] and [Set.prototype.delete] on a set kept in
    insertion order. *)
Definition Set_add (x : Listener) (s : list Listener) : list Listener :=
  if decide (x ∈ s) then s else s ++ [x].

Definition Set_delete (x : Listener) (s : list Listener) : bool * list Listener :=
  (bool_decide (x ∈ s), filter (λ y, y ≠ x) s).

(** ** Constants *)

Record TicketsData := mkTicketsData { td_tickets : list Ticket }.

Definition dquote : string := String (ascii_of_nat 34) EmptyString.

(** The initialiser of [DEFAULT_TICKETS], run once when the module is
    loaded; each time stamp is a [Date.now()] of its own. *)
Definition DEFAULT_TICKETS : M (list Ticket) :=
  now1 ← Date_now; now2 ← Date_now; now3 ← Date_now;
  now4 ← Date_now; now5 ← Date_now;
  now6 ← Date_now; now7 ← Date_now; now8 ← Date_now; now9 ← Date_now;
  mret
    [ {| id := "ticket_1";
         title := "Erro ao fazer login";
         description :=
           "Não consigo fazer login na plataforma. Aparece mensagem de erro "
           +:+ dquote +:+ "credenciais inválidas" +:+ dquote
           +:+ " mesmo com senha correta.";
         category := technical; priority := high; status := in_progress;
         author := "João Silva"; assignedTo := Some "Suporte Técnico";
         createdAt := (now1 - 2 * 60 * 60 * 1000)%Z;
         updatedAt := (now2 - 30 * 60 * 1000)%Z;
         resolvedAt := None;
         comments :=
           [ {| c_id := "comment_1"; c_ticketId := "ticket_1";
                c_author := "Suporte Técnico";
                c_content := "Olá João, estamos investigando o problema. Pode verificar se seu navegador está atualizado?";
                c_isInternal := false;
                c_timestamp := (now3 - 30 * 60 * 1000)%Z |} ] |};
      {| id := "ticket_2";
         title := "Cobrança duplicada";
         description := "Fui cobrado duas vezes este mês. Preciso de reembolso.";
         category := billing; priority := urgent; status := open;
         author := "Maria Santos"; assignedTo := None;
         createdAt := (now4 - 24 * 60 * 60 * 1000)%Z;
         updatedAt := (now5 - 24 * 60 * 60 * 1000)%Z;
         resolvedAt := None;
         comments := [] |};
      {| id := "ticket_3";
         title := "Sugestão de nova funcionalidade";
         description := "Seria ótimo ter um modo escuro na plataforma.";
         category := feature; priority := low; status := resolved;
         author := "Pedro Costa"; assignedTo := Some "Equipe de Produto";
         createdAt := (now6 - 7 * 24 * 60 * 60 * 1000)%Z;
         updatedAt := (now7 - 1 * 24 * 60 * 60 * 1000)%Z;
         resolvedAt := Some (now8 - 1 * 24 * 60 * 60 * 1000)%Z;
         comments :=
           [ {| c_id := "comment_2"; c_ticketId := "ticket_3";
                c_author := "Equipe de Produto";
                c_content := "Ótima sugestão! Já adicionamos ao roadmap do próximo trimestre.";
                c_isInternal := false;
                c_timestamp := (now9 - 1 * 24 * 60 * 60 * 1000)%Z |} ] |} ].

(** ** Storage service *)

Module StorageService.

(** [saveToStorage(TICKETS_DATA, {tickets})]: nothing on the server; in
    the browser the entry is overwritten. *)
Definition saveToStorage_tickets (value : list Ticket) : M unit :=
  client ← gets isClient;
  if client : bool then modify (set_stored_tickets (Some value)) else mret tt.

(** [loadFromStorage<TicketsData | null>(TICKETS_DATA, defaultValue)]: the
    default on the server and when the entry is absent; otherwise what the
    entry's text parses to, which is what [saveToStorage_tickets] put
    there. *)
Definition loadFromStorage_tickets (defaultValue : option TicketsData)
  : M (option TicketsData) :=
  client ← gets isClient;
  if client : bool then
    saved ← gets stored_tickets;
    mret (match saved with
          | Some ts => Some (mkTicketsData ts)
          | None => defaultValue
          end)
  else mret defaultValue.


End StorageService.

(** ** Model layer *)

Module TicketsModel.

(** [this.tickets.find(t => t.id === id)] together with the place of the
    object found, which is what [findIndex] returns and where a mutation
    of the object shows. *)
Definition find_ticket (i : string) (ts : list Ticket) : option (nat * Ticket) :=
  list_find (λ t, id t = i) ts.

Definition getAllTickets : M (list Ticket) :=
  ts ← gets tickets;
  mret (Array_sort (λ a b, updatedAt b - updatedAt a)%Z ts).

Definition getTicketById (i : string) : M (option Ticket) :=
  ts ← gets tickets;
  mret (snd <$> find_ticket i ts).

Definition createTicket (ticket : TicketDraft) : M Ticket :=
  now_id ← Date_now;
  rnd ← Math_random_suffix;
  now_created ← Date_now;
  now_updated ← Date_now;
  let newTicket :=
    {| id := "ticket_" +:+ pretty now_id +:+ "_" +:+ rnd;
       title := d_title ticket;
       description := d_description ticket;
       category := d_category ticket;
       priority := d_priority ticket;
       status := d_status ticket;
       author := d_author ticket;
       assignedTo := d_assignedTo ticket;
       createdAt := now_created;
       updatedAt := now_updated;
       resolvedAt := d_resolvedAt ticket;
       comments := [] |} in
  ts ← gets tickets;
  _ ← modify (set_tickets (ts ++ [newTicket]));
  mret newTicket.

(** [{ ...t, ...updates, updatedAt: now }] *)
Definition merge (t : Ticket) (updates : PartialTicket) (now : Z) : Ticket :=
  {| id := default (id t) (u_id updates);
     title := default (title t) (u_title updates);
     description := default (description t) (u_description updates);
     category := default (category t) (u_category updates);
     priority := default (priority t) (u_priority updates);
     status := default (status t) (u_status updates);
     author := default (author t) (u_author updates);
     assignedTo := default (assignedTo t) (u_assignedTo updates);
     createdAt := default (createdAt t) (u_createdAt updates);
     updatedAt := now;
     resolvedAt := default (resolvedAt t) (u_resolvedAt updates);
     comments := default (comments t) (u_comments updates) |}.

Definition with_resolvedAt (t : Ticket) (r : option Z) : Ticket :=
  mkTicket (id t) (title t) (description t) (category t) (priority t)
           (status t) (author t) (assignedTo t) (createdAt t) (updatedAt t)
           r (comments t).

Definition with_updatedAt (t : Ticket) (now : Z) : Ticket :=
  mkTicket (id t) (title t) (description t) (category t) (priority t)
           (status t) (author t) (assignedTo t) (createdAt t) now
           (resolvedAt t) (comments t).

Definition with_comments (t : Ticket) (cs : list Comment) : Ticket :=
  mkTicket (id t) (title t) (description t) (category t) (priority t)
           (status t) (author t) (assignedTo t) (createdAt t) (updatedAt t)
           (resolvedAt t) cs.

Definition updateTicket (i : string) (updates : PartialTicket) : M (option Ticket) :=
  ts ← gets tickets;
  match find_ticket i ts with
  | None => mret None
  | Some (index, old) =>
      now ← Date_now;
      let merged := merge old updates now in
      _ ← modify (set_tickets (<[index := merged]> ts));
      if bool_decide (u_status updates = Some resolved)
         && negb (truthy (resolvedAt merged))
      then
        now' ← Date_now;
        let stamped := with_resolvedAt merged (Some now') in
        _ ← modify (set_tickets (<[index := stamped]> ts));
        mret (Some stamped)
      else mret (Some merged)
  end.

Definition deleteTicket (i : string) : M bool :=
  ts ← gets tickets;
  let initialLength := length ts in
  let ts' := filter (λ t, id t ≠ i) ts in
  _ ← modify (set_tickets ts');
  mret (bool_decide (length ts' < initialLength)).

Definition searchTickets (term : string) : M (list Ticket) :=
  let lowerTerm := toLowerCase term in
  ts ← gets tickets;
  mret (filter (λ t,
          includes (toLowerCase (title t)) lowerTerm
          || includes (toLowerCase (description t)) lowerTerm
          || includes (toLowerCase (id t)) lowerTerm) ts).

Definition filterByCategory (c : TicketCategory) : M (list Ticket) :=
  ts ← gets tickets; mret (filter (λ t, category t = c) ts).

Definition filterByPriority (p : TicketPriority) : M (list Ticket) :=
  ts ← gets tickets; mret (filter (λ t, priority t = p) ts).

Definition filterByStatus (s : TicketStatus) : M (list Ticket) :=
  ts ← gets tickets; mret (filter (λ t, status t = s) ts).

Definition addComment (ticketId : string) (comment : CommentDraft)
  : M (option Comment) :=
  ts ← gets tickets;
  match find_ticket ticketId ts with
  | None => mret None
  | Some (index, ticket) =>
      now_id ← Date_now;
      rnd ← Math_random_suffix;
      now_stamp ← Date_now;
      let newComment :=
        {| c_id := "comment_" +:+ pretty now_id +:+ "_" +:+ rnd;
           c_ticketId := ticketId;
           c_author := cd_author comment;
           c_content := cd_content comment;
           c_isInternal := cd_isInternal comment;
           c_timestamp := now_stamp |} in
      let pushed := with_comments ticket (comments ticket ++ [newComment]) in
      _ ← modify (set_tickets (<[index := pushed]> ts));
      now_updated ← Date_now;
      _ ← modify (set_tickets (<[index := with_updatedAt pushed now_updated]> ts));
      mret (Some newComment)
  end.

Definition getTicketComments (ticketId : string) : M (list Comment) :=
  ticket ← getTicketById ticketId;
  mret (match ticket with
        | Some t => Array_sort (λ a b, c_timestamp a - c_timestamp b)%Z (comments t)
        | None => []
        end).

Record Statistics := mkStatistics {
  stat_total : nat;
  stat_open : nat;
  stat_inProgress : nat;
  stat_waiting : nat;
  stat_resolved : nat;
  stat_closed : nat;
  stat_byPriority : TicketPriority → nat;
  stat_byCategory : TicketCategory → nat;
  (** computed in double precision by the source; here the exact quotient *)
  stat_averageResolutionTime : Q
}.

Definition getStatistics : M Statistics :=
  ts ← gets tickets;
  let total := length ts in
  let n_open := length (filter (λ t, status t = open) ts) in
  let inProgress := length (filter (λ t, status t = in_progress) ts) in
  let n_waiting := length (filter (λ t, status t = waiting) ts) in
  let n_resolved := length (filter (λ t, status t = resolved) ts) in
  let n_closed := length (filter (λ t, status t = closed) ts) in
  let n_low := length (filter (λ t, priority t = low) ts) in
  let n_medium := length (filter (λ t, priority t = medium) ts) in
  let n_high := length (filter (λ t, priority t = high) ts) in
  let n_urgent := length (filter (λ t, priority t = urgent) ts) in
  let byPriority := λ p,
    match p with
    | low => n_low | medium => n_medium | high => n_high | urgent => n_urgent
    end in
  let n_technical := length (filter (λ t, category t = technical) ts) in
  let n_billing := length (filter (λ t, category t = billing) ts) in
  let n_account := length (filter (λ t, category t = account) ts) in
  let n_feature := length (filter (λ t, category t = feature) ts) in
  let n_bug := length (filter (λ t, category t = bug) ts) in
  let n_other := length (filter (λ t, category t = other) ts) in
  let byCategory := λ c,
    match c with
    | technical => n_technical | billing => n_billing | account => n_account
    | feature => n_feature | bug => n_bug | other => n_other
    end in
  let resolvedTickets := filter (λ t, truthy (resolvedAt t) = true) ts in
  let averageResolutionTime :=
    if bool_decide (0 < length resolvedTickets) then
      (inject_Z (foldl (λ sum t, sum + (default 0 (resolvedAt t) - createdAt t))%Z
                       0%Z resolvedTickets)
       / inject_Z (Z.of_nat (length resolvedTickets)))%Q
    else 0%Q in
  mret (mkStatistics total n_open inProgress n_waiting n_resolved n_closed
                     byPriority byCategory averageResolutionTime).

Definition getUrgentTickets : M (list Ticket) :=
  ts ← gets tickets;
  mret (Array_sort (λ a b, createdAt a - createdAt b)%Z
          (filter (λ t, priority t = urgent
                        ∧ (status t = open ∨ status t = in_progress)) ts)).

Definition validTransitions (s : TicketStatus) : list TicketStatus :=
  match s with
  | open => [in_progress; closed]
  | in_progress => [waiting; resolved; closed]
  | waiting => [in_progress; closed]
  | resolved => [closed; open]
  | closed => [open]
  end.

(** [{ status: newStatus }] *)
Definition status_update (newStatus : TicketStatus) : PartialTicket :=
  mkPartialTicket None None None None None (Some newStatus)
                  None None None None None None.

Definition changeTicketStatus (ticketId : string) (newStatus : TicketStatus)
  : M bool :=
  ticket ← getTicketById ticketId;
  match ticket with
  | None => mret false
  | Some ticket =>
      if bool_decide (newStatus ∈ validTransitions (status ticket))
      then _ ← updateTicket ticketId (status_update newStatus); mret true
      else mret false
  end.

Definition syncToStorage : M unit :=
  ts ← gets tickets;
  StorageService.saveToStorage_tickets ts.

(** [new TicketsModel(initialData)]: [initialData?.tickets], an array and
    so truthy even when empty, or else a copy of the default tickets, whose
    value is [defaults]. *)
Definition constructor (defaults : list Ticket) (initialData : option TicketsData)
  : M unit :=
  modify (set_tickets (match initialData with
                       | Some data => td_tickets data
                       | None => defaults
                       end)).

(** [TicketsModel.loadFromStorage()]: [new TicketsModel(data || undefined)] *)
Definition loadFromStorage (defaults : list Ticket) : M unit :=
  data ← StorageService.loadFromStorage_tickets None;
  constructor defaults data.

End TicketsModel.

(** ** Controller layer *)

Module TicketsController.

(** The handle [subscribe] returns: the closure
    [() => this.listeners.delete(listener)]. *)
Inductive Unsubscribe := unsubscribe_of (listener : Listener).

Definition subscribe (listener : Listener) : M Unsubscribe :=
  ls ← gets listeners;
  _ ← modify (set_listeners (Set_add listener ls));
  mret (unsubscribe_of listener).

(** Calling the handle. *)
Definition call_unsubscribe (h : Unsubscribe) : M bool :=
  let 'unsubscribe_of listener := h in
  ls ← gets listeners;
  let '(was_there, ls') := Set_delete listener ls in
  _ ← modify (set_listeners ls');
  mret was_there.

(** [this.listeners.forEach(listener => listener())] *)
Definition call_listeners : M unit :=
  ls ← gets listeners;
  modify (λ w, set_invoked (invoked w ++ ls) w).

Definition notify : M unit :=
  _ ← TicketsModel.syncToStorage;
  call_listeners.

Definition getAllTickets := TicketsModel.getAllTickets.
Definition getTicketById := TicketsModel.getTicketById.
Definition searchTickets := TicketsModel.searchTickets.
Definition filterByCategory := TicketsModel.filterByCategory.
Definition filterByPriority := TicketsModel.filterByPriority.
Definition filterByStatus := TicketsModel.filterByStatus.
Definition getUrgentTickets := TicketsModel.getUrgentTickets.
Definition getTicketComments := TicketsModel.getTicketComments.
Definition getStatistics := TicketsModel.getStatistics.

Definition createTicket (ticket : TicketDraft) : M unit :=
  _ ← TicketsModel.createTicket ticket;
  notify.

Definition updateTicket (i : string) (updates : PartialTicket) : M unit :=
  _ ← TicketsModel.updateTicket i updates;
  notify.

Definition deleteTicket (i : string) : M unit :=
  _ ← TicketsModel.deleteTicket i;
  notify.

Definition changeTicketStatus (ticketId : string) (newStatus : TicketStatus)
  : M bool :=
  success ← TicketsModel.changeTicketStatus ticketId newStatus;
  _ ← (if success : bool then notify else mret tt);
  mret success.

Definition addComment (ticketId : string) (comment : CommentDraft) : M unit :=
  _ ← TicketsModel.addComment ticketId comment;
  notify.

(** [new TicketsController(model)]: the model is the world's, the
    listeners are a new empty set. *)
Definition constructor : M unit := modify (set_listeners []).

End TicketsController.

(** ** View components *)

Module Views.

(** [timeAgo(timestamp)] of [TicketCard] *)
Definition timeAgo (timestamp : Z) : M string :=
  now ← Date_now;
  let diff := (now - timestamp)%Z in
  let minutes := (diff / 60000)%Z in
  let hours := (diff / 3600000)%Z in
  let days := (diff / 86400000)%Z in
  mret (if bool_decide (minutes < 60)%Z then pretty minutes +:+ "m atrás"
        else if bool_decide (hours < 24)%Z then pretty hours +:+ "h atrás"
        else pretty days +:+ "d atrás").

(** [controller.getAllTickets().slice(0, 6)] of [DashboardView] *)
Definition recentTickets : M (list Ticket) :=
  all ← TicketsController.getAllTickets;
  mret (take 6 all).

(** [filteredTickets] of [TicketsListView]: the search term is applied
    when it is not the empty string, a selection when it is not [null]. *)
Definition filteredTickets (searchTerm : string)
    (selectedCategory : option TicketCategory)
    (selectedPriority : option TicketPriority)
    (selectedStatus : option TicketStatus) : M (list Ticket) :=
  allTickets ← TicketsController.getAllTickets;
  let tickets := allTickets in
  tickets ←
    (if bool_decide (searchTerm ≠ "") then
       searchResults ← TicketsController.searchTickets searchTerm;
       mret (filter (λ t, Exists (λ sr, id sr = id t) searchResults) tickets)
     else mret tickets);
  let tickets :=
    match selectedCategory with
    | Some c => filter (λ t, category t = c) tickets
    | None => tickets
    end in
  let tickets :=
    match selectedPriority with
    | Some p => filter (λ t, priority t = p) tickets
    | None => tickets
    end in
  let tickets :=
    match selectedStatus with
    | Some s => filter (λ t, status t = s) tickets
    | None => tickets
    end in
  mret tickets.

(** The controller of [App]: [TicketsModel.loadFromStorage()] and
    [new TicketsController(model)], then the effect that subscribes the
    listener that forces the update. *)
Definition App_start (defaults : list Ticket) (forceUpdate : Listener)
  : M TicketsController.Unsubscribe :=
  _ ← TicketsModel.loadFromStorage defaults;
  _ ← TicketsController.constructor;
  TicketsController.subscribe forceUpdate.

End Views.

(** ** Sequences of calls *)

(** A sequence of [changeTicketStatus] calls on the model, results dropped. *)
Definition changeStatuses (calls : list (string * TicketStatus)) (w : World) : World :=
  foldl (λ w c, snd (TicketsModel.changeTicketStatus c.1 c.2 w)) w calls.

(** The read-only methods of the controller. *)
Inductive Query :=
| GetAllTickets
| GetTicketById (i : string)
| SearchTickets (term : string)
| FilterByCategory (c : TicketCategory)
| FilterByPriority (p : TicketPriority)
| FilterByStatus (s : TicketStatus)
| GetUrgentTickets
| GetTicketComments (i : string)
| GetStatistics.

(** A call of a public method of the controller other than [subscribe]. *)
Inductive Call :=
| CreateTicket (ticket : TicketDraft)
| UpdateTicket (i : string) (updates : PartialTicket)
| DeleteTicket (i : string)
| ChangeTicketStatus (i : string) (newStatus : TicketStatus)
| AddComment (i : string) (comment : CommentDraft)
| Ask (q : Query).

Definition drop {A} (m : M A) : M unit := _ ← m; mret tt.

Definition ask (q : Query) : M unit :=
  match q with
  | GetAllTickets => drop TicketsController.getAllTickets
  | GetTicketById i => drop (TicketsController.getTicketById i)
  | SearchTickets term => drop (TicketsController.searchTickets term)
  | FilterByCategory c => drop (TicketsController.filterByCategory c)
  | FilterByPriority p => drop (TicketsController.filterByPriority p)
  | FilterByStatus s => drop (TicketsController.filterByStatus s)
  | GetUrgentTickets => drop TicketsController.getUrgentTickets
  | GetTicketComments i => drop (TicketsController.getTicketComments i)
  | GetStatistics => drop TicketsController.getStatistics
  end.

(** Performs the call; the result is the boolean the method returned, for
    the one method that returns one. *)
Definition perform (c : Call) : M (option bool) :=
  match c with
  | CreateTicket ticket => _ ← TicketsController.createTicket ticket; mret None
  | UpdateTicket i updates => _ ← TicketsController.updateTicket i updates; mret None
  | DeleteTicket i => _ ← TicketsController.deleteTicket i; mret None
  | ChangeTicketStatus i newStatus =>
      success ← TicketsController.changeTicketStatus i newStatus; mret (Some success)
  | AddComment i comment => _ ← TicketsController.addComment i comment; mret None
  | Ask q => _ ← ask q; mret None
  end.

(** Performs the calls in order and returns each with its result. *)
Fixpoint perform_all (calls : list Call) : M (list (Call * option bool)) :=
  match calls with
  | [] => mret []
  | c :: calls' =>
      r ← perform c;
      rs ← perform_all calls';
      mret ((c, r) :: rs)
  end.

(** How many times the listener has been called so far. *)
Definition notifications (l : Listener) (w : World) : nat :=
  length (filter (λ x, x = l) (invoked w)).

(** The clock never goes back. *)
Definition monotone_clock (w : World) : Prop :=
  ∀ n m : nat, (n ≤ m)%nat → (clock w n ≤ clock w m)%Z.

(** No ticket was updated before it was created, or created after a time
    the clock has still to give. *)
Definition timestamps_in_order (w : World) : Prop :=
  ∀ t, t ∈ tickets w →
    (createdAt t ≤ updatedAt t)%Z
    ∧ ∀ n : nat, (clock_reads w ≤ n)%nat → (createdAt t ≤ clock w n)%Z.

(** The calls that do not set [createdAt] by hand. *)
Definition keeps_createdAt (c : Call) : Prop :=
  match c with
  | UpdateTicket _ updates => u_createdAt updates = None
  | _ => True
  end.

(** A sequence of status changes of one ticket. *)
Definition walk (i : string) (path : list TicketStatus) : list (string * TicketStatus) :=
  (λ s, (i, s)) <$> path.

(** Every step of the path is an edge of [validTransitions]. *)
Fixpoint legal_path (from : TicketStatus) (path : list TicketStatus) : bool :=
  match path with
  | [] => true
  | s :: path' =>
      bool_decide (s ∈ TicketsModel.validTransitions from) && legal_path s path'
  end.

(** A shortest path of [validTransitions] from one status to another. *)
Definition route (from target : TicketStatus) : list TicketStatus :=
  match from, target with
  | open, open | in_progress, in_progress | waiting, waiting
  | resolved, resolved | closed, closed => []
  | open, in_progress | waiting, in_progress => [in_progress]
  | open, closed | in_progress, closed | waiting, closed | resolved, closed => [closed]
  | resolved, open | closed, open => [open]
  | in_progress, waiting => [waiting]
  | in_progress, resolved => [resolved]
  | open, waiting => [in_progress; waiting]
  | open, resolved | waiting, resolved => [in_progress; resolved]
  | in_progress, open | waiting, open => [closed; open]
  | resolved, in_progress | closed, in_progress => [open; in_progress]
  | resolved, waiting | closed, waiting => [open; in_progress; waiting]
  | closed, resolved => [open; in_progress; resolved]
  end.

(** ** What the specification says, in its own words *)

(** The ten edges of the transition table of the specification. *)
Definition transition_table : list (TicketStatus * TicketStatus) :=
  [ (open, in_progress); (open, closed);
    (in_progress, waiting); (in_progress, resolved); (in_progress, closed);
    (waiting, in_progress); (waiting, closed);
    (resolved, closed); (resolved, open);
    (closed, open) ].

(** The calls the specification lists as notifying: create, update,
    delete, add-comment always, change-status when it returned success. *)
Definition notifying (cr : Call * option bool) : bool :=
  match cr with
  | (CreateTicket _, _) | (UpdateTicket _ _, _)
  | (DeleteTicket _, _) | (AddComment _ _, _) => true
  | (ChangeTicketStatus _ _, r) => bool_decide (r = Some true)
  | (Ask _, _) => false
  end.

(** ** Sample data *)

Definition sample_ticket (i : string) (s : TicketStatus) (r : option Z) : Ticket :=
  {| id := i; title := "Erro ao fazer login";
     description := "Nao consigo fazer login na plataforma.";
     category := technical; priority := high; status := s;
     author := "Joao Silva"; assignedTo := Some "Suporte";
     createdAt := 1000; updatedAt := 2000; resolvedAt := r;
     comments := [] |}.

Definition sample_world : World :=
  {| tickets := [ sample_ticket "ticket_1" in_progress None;
                  sample_ticket "ticket_2" open None;
                  sample_ticket "ticket_3" resolved (Some 1500%Z) ];
     listeners := [7];
     invoked := [];
     isClient := true;
     stored_tickets := None;
     clock := λ n, (5000 + Z.of_nat n)%Z;
     clock_reads := 0;
     entropy := λ _, "k3x9q0a1z";
     entropy_reads := 0 |}.

Definition empty_draft : TicketDraft :=
  {| d_title := ""; d_description := ""; d_category := technical;
     d_priority := medium; d_status := open; d_author := "";
     d_assignedTo := Some ""; d_resolvedAt := None |}.

Definition sample_comment : CommentDraft :=
  {| cd_author := "Suporte"; cd_content := "Estamos investigando.";
     cd_isInternal := false |}.

(** ** Running the computations *)

Ltac run_M :=
  unfold mbind, M_bind, mret, M_ret, gets, modify, drop; cbn beta iota.

Ltac unfold_setters :=
  unfold Date_now, Math_random_suffix, set_tickets, set_listeners, set_invoked,
    set_stored_tickets, set_clock_reads, set_entropy_reads; cbn.

Section ModelEquations.
Import TicketsModel.

Lemma find_ticket_Some i ts k t :
  find_ticket i ts = Some (k, t) →
  ts !! k = Some t ∧ id t = i ∧ ∀ j y, ts !! j = Some y → j < k → id y ≠ i.
Proof. unfold find_ticket. by rewrite list_find_Some. Qed.

Lemma getTicketById_run i w :
  getTicketById i w = (snd <$> find_ticket i (tickets w), w).
Proof. reflexivity. Qed.

Lemma getTicketById_None i w :
  fst (getTicketById i w) = None ↔ find_ticket i (tickets w) = None.
Proof.
  rewrite getTicketById_run. cbn.
  destruct (find_ticket i (tickets w)) as [[k t]|]; cbn; split; congruence.
Qed.

Lemma getTicketById_Some i w t :
  fst (getTicketById i w) = Some t ↔ ∃ k, find_ticket i (tickets w) = Some (k, t).
Proof.
  rewrite getTicketById_run. cbn.
  destruct (find_ticket i (tickets w)) as [[k t']|]; cbn; split.
  - intros [= ->]. by exists k.
  - intros [k' [= _ ->]]. done.
  - done.
  - intros [k' [=]].
Qed.

Lemma updateTicket_absent i u w :
  find_ticket i (tickets w) = None → updateTicket i u w = (None, w).
Proof. intros H. unfold updateTicket. run_M. by rewrite H. Qed.

Lemma updateTicket_found i u w k t :
  find_ticket i (tickets w) = Some (k, t) →
  updateTicket i u w =
    let merged := merge t u (clock w (clock_reads w)) in
    if bool_decide (u_status u = Some resolved) && negb (truthy (resolvedAt merged))
    then
      let stamped := with_resolvedAt merged (Some (clock w (S (clock_reads w)))) in
      (Some stamped,
       set_tickets (<[k := stamped]> (tickets w))
                   (set_clock_reads (S (S (clock_reads w))) w))
    else
      (Some merged,
       set_tickets (<[k := merged]> (tickets w))
                   (set_clock_reads (S (clock_reads w)) w)).
Proof.
  intros H. unfold updateTicket. run_M. rewrite H. cbn zeta.
  unfold_setters. by destruct (_ && _).
Qed.

Lemma changeTicketStatus_run i s w :
  changeTicketStatus i s w =
  match find_ticket i (tickets w) with
  | None => (false, w)
  | Some (_, t) =>
      if bool_decide (s ∈ validTransitions (status t))
      then (true, snd (updateTicket i (status_update s) w))
      else (false, w)
  end.
Proof.
  unfold changeTicketStatus, getTicketById. run_M.
  destruct (find_ticket i (tickets w)) as [[index t]|]; cbn; [|done].
  destruct (bool_decide _); [|done].
  by destruct (updateTicket _ _ w).
Qed.

Lemma valid_transition_table a s :
  s ∈ validTransitions a ↔ (a, s) ∈ transition_table.
Proof.
  etrans; [symmetry; apply bool_decide_spec|].
  etrans; [|apply bool_decide_spec].
  destruct a, s; vm_compute; tauto.
Qed.

Lemma no_self_transition a : a ∉ validTransitions a.
Proof.
  intros H%valid_transition_table. apply (bool_decide_pack _) in H.
  destruct a; exact H.
Qed.

End ModelEquations.

(** ** The status workflow *)

Section Workflow.
Import TicketsModel.

Lemma find_ticket_insert_same i ts k t t' :
  find_ticket i ts = Some (k, t) → id t' = i →
  find_ticket i (<[k := t']> ts) = Some (k, t').
Proof.
  intros (Hk & _ & Hleast)%find_ticket_Some Hid.
  unfold find_ticket. apply list_find_Some. split_and!.
  - apply list_lookup_insert_eq. by eapply lookup_lt_Some.
  - done.
  - intros j y Hj Hlt. rewrite list_lookup_insert_ne in Hj by lia.
    by eapply Hleast.
Qed.

Lemma merge_status_update t s now :
  merge t (status_update s) now =
  mkTicket (id t) (title t) (description t) (category t) (priority t) s
           (author t) (assignedTo t) (createdAt t) now (resolvedAt t)
           (comments t).
Proof. reflexivity. Qed.

(** What a status change that passes the guard does to the array. *)
Lemma changeTicketStatus_valid i s w k t :
  find_ticket i (tickets w) = Some (k, t) →
  s ∈ validTransitions (status t) →
  ∃ t', changeTicketStatus i s w = (true, snd (updateTicket i (status_update s) w))
        ∧ tickets (snd (changeTicketStatus i s w)) = <[k := t']> (tickets w)
        ∧ id t' = id t ∧ status t' = s
        ∧ (resolvedAt t' = resolvedAt t
           ∨ s = resolved ∧ truthy (resolvedAt t) = false
             ∧ resolvedAt t' = Some (clock w (S (clock_reads w))))
        ∧ (s = resolved → truthy (resolvedAt t) = false →
           resolvedAt t' = Some (clock w (S (clock_reads w)))).
Proof.
  intros Hfind Hvalid.
  rewrite changeTicketStatus_run, Hfind, bool_decide_eq_true_2 by done.
  rewrite (updateTicket_found _ _ _ _ _ Hfind). cbn zeta.
  rewrite merge_status_update. cbn [resolvedAt u_status status_update].
  destruct (decide (s = resolved)) as [->|Hne].
  - rewrite bool_decide_eq_true_2 by done. cbn [andb].
    destruct (truthy (resolvedAt t)) eqn:Htr; cbn [negb].
    + eexists. split_and!;
        first [ reflexivity | by left | intros; congruence ].
    + eexists. split_and!;
        first [ reflexivity | by right | intros; congruence ].
  - rewrite bool_decide_eq_false_2 by congruence. cbn [andb].
    eexists. split_and!;
      first [ reflexivity | by left | intros; congruence ].
Qed.

(** C1: for a ticket of the store and a requested status,
    [changeTicketStatus] returns [true] exactly when (current status, new
    status) is one of the ten edges of the transition table, and then the
    ticket has the new status; for every other pair, a self-transition
    among them, it returns [false] and the world, so the ticket with its
    status and [updatedAt], is as it was. *)
Theorem changeTicketStatus_succeeds_iff_edge
    (w : World) (i : string) (t : Ticket) (s : TicketStatus) :
  fst (getTicketById i w) = Some t →
  (fst (changeTicketStatus i s w) = true ↔ (status t, s) ∈ transition_table)
  ∧ ((status t, s) ∉ transition_table → changeTicketStatus i s w = (false, w))
  ∧ (s = status t → changeTicketStatus i s w = (false, w))
  ∧ ((status t, s) ∈ transition_table →
     ∃ t', fst (getTicketById i (snd (changeTicketStatus i s w))) = Some t'
           ∧ status t' = s).
Proof.
  intros [k Hfind]%getTicketById_Some.
  assert (Hfail : (status t, s) ∉ transition_table →
                  changeTicketStatus i s w = (false, w)).
  { intros Hno. rewrite changeTicketStatus_run, Hfind.
    rewrite bool_decide_eq_false_2; [done|]. by rewrite valid_transition_table. }
  split_and!.
  - split.
    + intros Hok. destruct (decide ((status t, s) ∈ transition_table)); [done|].
      rewrite Hfail in Hok by done. discriminate.
    + intros Hedge%valid_transition_table.
      destruct (changeTicketStatus_valid _ _ _ _ _ Hfind Hedge) as (t' & -> & _).
      done.
  - done.
  - intros ->. apply Hfail. rewrite <- valid_transition_table.
    apply no_self_transition.
  - intros Hedge%valid_transition_table.
    destruct (changeTicketStatus_valid _ _ _ _ _ Hfind Hedge)
      as (t' & _ & Hts & Hid & Hst & _).
    exists t'. split; [|done].
    apply getTicketById_Some. exists k. rewrite Hts.
    apply (find_ticket_insert_same _ _ _ t); [done|].
    rewrite Hid. by destruct (find_ticket_Some _ _ _ _ Hfind) as (_ & ? & _).
Qed.

Lemma changeTicketStatus_succeeds_iff_edge_witness :
  fst (getTicketById "ticket_2" sample_world)
    = Some (sample_ticket "ticket_2" open None)
  ∧ changeTicketStatus "ticket_2" resolved sample_world = (false, sample_world).
Proof.
  split; [reflexivity|].
  destruct (changeTicketStatus_succeeds_iff_edge sample_world "ticket_2"
              (sample_ticket "ticket_2" open None) resolved eq_refl)
    as (_ & Hno & _).
  apply Hno. intros H. apply (bool_decide_pack _) in H. exact H.
Defined.

(** C8: for an id that no ticket of the array has, [changeTicketStatus]
    returns [false] whatever the requested status and the array is as it
    was; the controller's method returns [false] as well and leaves the
    whole world as it was, so no listener is called and nothing is
    stored. *)
Theorem changeTicketStatus_absent (w : World) (i : string) (s : TicketStatus) :
  fst (getTicketById i w) = None →
  changeTicketStatus i s w = (false, w)
  ∧ TicketsController.changeTicketStatus i s w = (false, w)
  ∧ invoked (snd (TicketsController.changeTicketStatus i s w)) = invoked w.
Proof.
  intros Hnone%getTicketById_None.
  assert (Hm : changeTicketStatus i s w = (false, w)).
  { by rewrite changeTicketStatus_run, Hnone. }
  assert (Hc : TicketsController.changeTicketStatus i s w = (false, w)).
  { unfold TicketsController.changeTicketStatus. run_M. by rewrite Hm. }
  split_and!; [done..|]. by rewrite Hc.
Qed.

Lemma changeTicketStatus_absent_witness :
  fst (getTicketById "ticket_9" sample_world) = None
  ∧ TicketsController.changeTicketStatus "ticket_9" closed sample_world
    = (false, sample_world).
Proof.
  split; [reflexivity|].
  destruct (changeTicketStatus_absent sample_world "ticket_9" closed eq_refl)
    as (_ & Hc & _).
  exact Hc.
Defined.

End Workflow.

(** ** Creating a ticket *)

Section Create.
Import TicketsModel.

(** C2, as the specification has it, does not hold: a draft whose title,
    description and author are all empty is accepted, and a ticket is
    added to the array. *)
Lemma createTicket_accepts_empty_fields :
  d_title empty_draft = "" ∧ d_description empty_draft = ""
  ∧ d_author empty_draft = ""
  ∧ tickets (snd (createTicket empty_draft sample_world))
    = tickets sample_world ++ [fst (createTicket empty_draft sample_world)]
  ∧ length (tickets (snd (createTicket empty_draft sample_world)))
    = S (length (tickets sample_world)).
Proof. vm_compute. repeat split. Qed.

(** C2, amended: [createTicket] validates nothing.  For every draft, one
    with an empty title, description or author included, it returns a
    ticket with the draft's fields, no comments, an id built from the
    clock and the random source and the time stamps of the clock, and
    that ticket is appended to the array. *)
Theorem createTicket_always_appends (w : World) (draft : TicketDraft) :
  let t := fst (createTicket draft w) in
  let w' := snd (createTicket draft w) in
  tickets w' = tickets w ++ [t]
  ∧ title t = d_title draft ∧ description t = d_description draft
  ∧ author t = d_author draft ∧ category t = d_category draft
  ∧ priority t = d_priority draft ∧ status t = d_status draft
  ∧ assignedTo t = d_assignedTo draft ∧ resolvedAt t = d_resolvedAt draft
  ∧ comments t = []
  ∧ id t = "ticket_" +:+ pretty (clock w (clock_reads w)) +:+ "_"
           +:+ entropy w (entropy_reads w)
  ∧ createdAt t = clock w (S (clock_reads w))
  ∧ updatedAt t = clock w (S (S (clock_reads w))).
Proof. cbn zeta. unfold createTicket. run_M. unfold_setters. by repeat split. Qed.

End Create.

(** ** The resolution stamp *)

Section ResolutionStamp.
Import TicketsModel.

(** One status change, seen from a place of the array: the ticket there
    keeps its [resolvedAt], unless the call is the transition into
    [resolved] of this very ticket, not stamped so far, in which case
    it gets the clock's value. *)
Lemma changeTicketStatus_resolvedAt_at w i s k t :
  tickets w !! k = Some t →
  ∃ t', tickets (snd (changeTicketStatus i s w)) !! k = Some t'
        ∧ (resolvedAt t' = resolvedAt t
           ∨ s = resolved
             ∧ fst (changeTicketStatus i s w) = true
             ∧ find_ticket i (tickets w) = Some (k, t)
             ∧ truthy (resolvedAt t) = false
             ∧ resolvedAt t' = Some (clock w (S (clock_reads w)))).
Proof.
  intros Hk.
  destruct (find_ticket i (tickets w)) as [[k0 t0]|] eqn:Hfind.
  - destruct (decide (s ∈ validTransitions (status t0))) as [Hvalid|Hinvalid].
    + destruct (changeTicketStatus_valid _ _ _ _ _ Hfind Hvalid)
        as (t' & Hrun & Hts & _ & _ & Hres & _).
      rewrite Hts. destruct (decide (k = k0)) as [->|Hne].
      * exists t'. split.
        { apply list_lookup_insert_eq. by eapply lookup_lt_Some. }
        destruct (find_ticket_Some _ _ _ _ Hfind) as (Hk0 & _).
        assert (t0 = t) as -> by congruence.
        destruct Hres as [Hsame|(-> & Hunset & Hstamp)]; [by left|].
        right. rewrite Hrun. by split_and!.
      * exists t. split; [|by left].
        by rewrite list_lookup_insert_ne.
    + exists t. rewrite changeTicketStatus_run, Hfind.
      rewrite bool_decide_eq_false_2 by done. split; [done|by left].
  - exists t. rewrite changeTicketStatus_run, Hfind. split; [done|by left].
Qed.

Lemma changeStatuses_cons c calls w :
  changeStatuses (c :: calls) w
  = changeStatuses calls (snd (changeTicketStatus c.1 c.2 w)).
Proof. reflexivity. Qed.

Lemma changeStatuses_keep_resolvedAt calls : ∀ w k t,
  tickets w !! k = Some t → truthy (resolvedAt t) = true →
  ∃ t', tickets (changeStatuses calls w) !! k = Some t'
        ∧ resolvedAt t' = resolvedAt t.
Proof.
  induction calls as [|[i s] calls IH]; intros w k t Hk Hset.
  - exists t. by split.
  - rewrite changeStatuses_cons. cbn [fst snd].
    destruct (changeTicketStatus_resolvedAt_at w i s k t Hk)
      as (t1 & Hk1 & [Hsame|(_ & _ & _ & Hunset & _)]); [|congruence].
    destruct (IH _ _ _ Hk1) as (t' & Hk' & Hres'); [congruence|].
    exists t'. split; [done|congruence].
Qed.

(** C3: [resolvedAt] is stamped once and then kept.  For the ticket at
    any place of the array: (a) once its [resolvedAt] is set, every
    sequence of [changeTicketStatus] calls, on whatever ids and statuses,
    leaves it equal to that stamp; (b) a single call changes it in one
    case only, the successful transition into [resolved] of this very
    ticket while it has no stamp, where it becomes the clock's value;
    (c) that transition, from [in_progress], succeeds and stamps.
    The code reads "set" as the truth value of [resolvedAt], here and in
    [getStatistics]. *)
Theorem resolvedAt_stamped_once (w : World) (k : nat) (t : Ticket) :
  tickets w !! k = Some t →
  (truthy (resolvedAt t) = true →
   ∀ calls, ∃ t', tickets (changeStatuses calls w) !! k = Some t'
                  ∧ resolvedAt t' = resolvedAt t)
  ∧ (∀ i s, ∃ t', tickets (snd (changeTicketStatus i s w)) !! k = Some t'
        ∧ (resolvedAt t' = resolvedAt t
           ∨ s = resolved
             ∧ fst (changeTicketStatus i s w) = true
             ∧ find_ticket i (tickets w) = Some (k, t)
             ∧ truthy (resolvedAt t) = false
             ∧ resolvedAt t' = Some (clock w (S (clock_reads w)))))
  ∧ (∀ i, find_ticket i (tickets w) = Some (k, t) →
          status t = in_progress → truthy (resolvedAt t) = false →
          fst (changeTicketStatus i resolved w) = true
          ∧ ∃ t', tickets (snd (changeTicketStatus i resolved w)) !! k = Some t'
                  ∧ status t' = resolved
                  ∧ resolvedAt t' = Some (clock w (S (clock_reads w)))).
Proof.
  intros Hk. split_and!.
  - intros Hset calls. by apply changeStatuses_keep_resolvedAt.
  - intros i s. by apply changeTicketStatus_resolvedAt_at.
  - intros i Hfind Hst Hunset.
    assert (Hvalid : resolved ∈ validTransitions (status t)).
    { rewrite Hst. apply (bool_decide_unpack _). exact I. }
    destruct (changeTicketStatus_valid _ _ _ _ _ Hfind Hvalid)
      as (t' & Hrun & Hts & _ & Hst' & _ & Hstamp).
    rewrite Hrun at 1. split; [done|].
    exists t'. rewrite Hts. split_and!; [|done|by apply Hstamp].
    apply list_lookup_insert_eq. by eapply lookup_lt_Some.
Qed.

Lemma resolvedAt_stamped_once_witness :
  tickets sample_world !! 2 = Some (sample_ticket "ticket_3" resolved (Some 1500%Z))
  ∧ ∃ t', tickets (changeStatuses
                     [ ("ticket_3", closed); ("ticket_3", open);
                       ("ticket_3", in_progress); ("ticket_3", resolved) ]
                     sample_world) !! 2 = Some t'
          ∧ resolvedAt t' = Some 1500%Z.
Proof.
  split; [reflexivity|].
  destruct (resolvedAt_stamped_once sample_world 2
              (sample_ticket "ticket_3" resolved (Some 1500%Z)) eq_refl)
    as (Hkeep & _).
  exact (Hkeep eq_refl _).
Defined.

(** The scenario of the specification on a ticket without a stamp:
    in-progress, resolved (stamped 5001), closed, open, in-progress,
    resolved again: the stamp is still 5001, and [updatedAt] moved on. *)
Example resolve_reopen_resolve :
  let w := changeStatuses
             [ ("ticket_1", resolved); ("ticket_1", closed); ("ticket_1", open);
               ("ticket_1", in_progress); ("ticket_1", resolved) ]
             sample_world in
  (resolvedAt <$> tickets w) = [Some 5001%Z; None; Some 1500%Z]
  ∧ (status <$> tickets w) = [resolved; open; resolved]
  ∧ (updatedAt <$> tickets w) = [5005%Z; 2000%Z; 2000%Z].
Proof. vm_compute. repeat split. Qed.

(** The guard is [!resolvedAt]: a stored [resolvedAt] of 0, which no
    clock after 1970 gives, is read as no stamp and is stamped. *)
Remark resolvedAt_zero_counts_as_unset :
  let w := set_tickets [sample_ticket "ticket_1" in_progress (Some 0%Z)]
                       sample_world in
  truthy (Some 0%Z) = false
  ∧ (resolvedAt <$> tickets (snd (changeTicketStatus "ticket_1" resolved w)))
    = [Some 5001%Z].
Proof. vm_compute. repeat split. Qed.

End ResolutionStamp.

(** ** Statistics *)

Section Statistics.
Import TicketsModel.

Lemma length_sort_insert {A} (cmp : A → A → Z) x l :
  length (sort_insert cmp x l) = S (length l).
Proof.
  induction l as [|y l IH]; [done|]. cbn.
  destruct (cmp x y <=? 0)%Z; cbn; by rewrite ?IH.
Qed.

Lemma length_Array_sort {A} (cmp : A → A → Z) l :
  length (Array_sort cmp l) = length l.
Proof.
  induction l as [|x l IH]; [done|]. cbn.
  by rewrite length_sort_insert, <- IH.
Qed.

Lemma count_by_status (ts : list Ticket) :
  length (filter (λ t, status t = open) ts)
  + length (filter (λ t, status t = in_progress) ts)
  + length (filter (λ t, status t = waiting) ts)
  + length (filter (λ t, status t = resolved) ts)
  + length (filter (λ t, status t = closed) ts)
  = length ts.
Proof.
  induction ts as [|t ts IH]; [done|].
  rewrite !filter_cons.
  destruct (status t); repeat case_decide; try congruence; cbn [length]; lia.
Qed.

Lemma count_by_priority (ts : list Ticket) :
  length (filter (λ t, priority t = low) ts)
  + length (filter (λ t, priority t = medium) ts)
  + length (filter (λ t, priority t = high) ts)
  + length (filter (λ t, priority t = urgent) ts)
  = length ts.
Proof.
  induction ts as [|t ts IH]; [done|].
  rewrite !filter_cons.
  destruct (priority t); repeat case_decide; try congruence; cbn [length]; lia.
Qed.

Lemma count_by_category (ts : list Ticket) :
  length (filter (λ t, category t = technical) ts)
  + length (filter (λ t, category t = billing) ts)
  + length (filter (λ t, category t = account) ts)
  + length (filter (λ t, category t = feature) ts)
  + length (filter (λ t, category t = bug) ts)
  + length (filter (λ t, category t = other) ts)
  = length ts.
Proof.
  induction ts as [|t ts IH]; [done|].
  rewrite !filter_cons.
  destruct (category t); repeat case_decide; try congruence; cbn [length]; lia.
Qed.

(** C5: in every state of the collection the [total] of the statistics
    is the length of [getAllTickets()], and the five counts by status,
    the four by priority and the six by category each add up to it. *)
Theorem getStatistics_counts (w : World) :
  let st := fst (getStatistics w) in
  stat_total st = length (fst (getAllTickets w))
  ∧ stat_open st + stat_inProgress st + stat_waiting st + stat_resolved st
    + stat_closed st = stat_total st
  ∧ stat_byPriority st low + stat_byPriority st medium
    + stat_byPriority st high + stat_byPriority st urgent = stat_total st
  ∧ stat_byCategory st technical + stat_byCategory st billing
    + stat_byCategory st account + stat_byCategory st feature
    + stat_byCategory st bug + stat_byCategory st other = stat_total st.
Proof.
  cbn zeta. unfold getStatistics, getAllTickets. run_M. cbn.
  split_and!.
  - by rewrite length_Array_sort.
  - apply count_by_status.
  - apply count_by_priority.
  - apply count_by_category.
Qed.

Example getStatistics_sample :
  let st := fst (getStatistics sample_world) in
  (stat_total st, stat_open st, stat_inProgress st, stat_resolved st)
    = (3, 1, 1, 1)
  ∧ stat_byPriority st high = 3 ∧ stat_byCategory st technical = 3
  ∧ (stat_averageResolutionTime st == 500)%Q.
Proof. vm_compute. repeat split. Qed.

End Statistics.

(** ** Searching *)

Section Search.
Import TicketsModel.

Lemma includes_empty s : includes s "" = true.
Proof. by destruct s. Qed.

Lemma filter_all {A} (P : A → Prop) `{!∀ x, Decision (P x)} (l : list A) :
  (∀ x, P x) → filter P l = l.
Proof.
  intros HP. induction l as [|x l IH]; [done|].
  by rewrite filter_cons_True, IH.
Qed.

(** C9: searching for the empty string returns every ticket of the
    collection, in the order of the array: the empty string is included
    in every title. *)
Theorem searchTickets_empty_term (w : World) :
  searchTickets "" w = (tickets w, w)
  ∧ ∀ t, includes (toLowerCase (title t)) (toLowerCase "") = true.
Proof.
  split.
  - unfold searchTickets. run_M. f_equal.
    apply filter_all. intros t. cbn [toLowerCase].
    by rewrite includes_empty.
  - intros t. apply includes_empty.
Qed.

Example searchTickets_sample :
  (id <$> fst (searchTickets "TICKET_2" sample_world)) = ["ticket_2"]
  ∧ (id <$> fst (searchTickets "Login" sample_world))
    = ["ticket_1"; "ticket_2"; "ticket_3"]
  ∧ fst (searchTickets "senha" sample_world) = [].
Proof. vm_compute. repeat split. Qed.

End Search.

(** ** Deleting a ticket *)

Section Delete.
Import TicketsModel.

Lemma deleteTicket_run i w :
  deleteTicket i w =
  (bool_decide (length (filter (λ t, id t ≠ i) (tickets w)) < length (tickets w)),
   set_tickets (filter (λ t, id t ≠ i) (tickets w)) w).
Proof. reflexivity. Qed.

(** C10: deleting touches the tickets of the deleted id only.  After
    [deleteTicket(i)] the tickets with another id are the same records,
    fields and comments, in the same relative order: the array is a
    subsequence of the old one, its tickets with an id other than [i] are
    the old ones in sequence, and none of them is lost. *)
Theorem deleteTicket_frame (w : World) (i : string) :
  let w' := snd (deleteTicket i w) in
  filter (λ t, id t ≠ i) (tickets w') = filter (λ t, id t ≠ i) (tickets w)
  ∧ tickets w' `sublist_of` tickets w
  ∧ (∀ t, t ∈ tickets w → id t ≠ i → t ∈ tickets w')
  ∧ (∀ t, t ∈ tickets w' → t ∈ tickets w ∧ id t ≠ i).
Proof.
  cbn zeta. rewrite deleteTicket_run. cbn [snd set_tickets tickets].
  split_and!.
  - apply list_filter_filter_l. tauto.
  - apply sublist_filter.
  - intros t Ht Hne. by apply list_elem_of_filter.
  - intros t Ht%list_elem_of_filter. tauto.
Qed.

Example deleteTicket_sample :
  (id <$> tickets (snd (deleteTicket "ticket_2" sample_world)))
    = ["ticket_1"; "ticket_3"]
  ∧ fst (deleteTicket "ticket_2" sample_world) = true
  ∧ deleteTicket "ticket_9" sample_world = (false, sample_world).
Proof. vm_compute. repeat split. Qed.

End Delete.

(** ** Adding a comment *)

Section AddComment.
Import TicketsModel.

Lemma addComment_absent i draft w :
  find_ticket i (tickets w) = None → addComment i draft w = (None, w).
Proof. intros H. unfold addComment. run_M. by rewrite H. Qed.

Lemma addComment_found i draft w k t :
  find_ticket i (tickets w) = Some (k, t) →
  addComment i draft w =
    let c := {| c_id := "comment_" +:+ pretty (clock w (clock_reads w)) +:+ "_"
                        +:+ entropy w (entropy_reads w);
                c_ticketId := i;
                c_author := cd_author draft;
                c_content := cd_content draft;
                c_isInternal := cd_isInternal draft;
                c_timestamp := clock w (S (clock_reads w)) |} in
    (Some c,
     set_tickets
       (<[k := with_updatedAt (with_comments t (comments t ++ [c]))
                              (clock w (S (S (clock_reads w))))]> (tickets w))
       (set_entropy_reads (S (entropy_reads w))
          (set_clock_reads (S (S (S (clock_reads w)))) w))).
Proof. intros H. unfold addComment. run_M. by rewrite H. Qed.

(** C7: for an id that no ticket has, [addComment] returns [null] and
    the world is as it was, so no comment exists anywhere that did not
    before; for the id of a ticket it returns a new comment with that
    ticket id and the draft's fields, and in the array the ticket has the
    comment appended to its comments and [updatedAt] set to the clock's
    value, every other place of the array being as it was. *)
Theorem addComment_spec (w : World) (i : string) (draft : CommentDraft) :
  (fst (getTicketById i w) = None → addComment i draft w = (None, w))
  ∧ (∀ t, fst (getTicketById i w) = Some t →
       ∃ c k t',
         fst (addComment i draft w) = Some c
         ∧ c_ticketId c = i ∧ c_author c = cd_author draft
         ∧ c_content c = cd_content draft
         ∧ c_isInternal c = cd_isInternal draft
         ∧ tickets w !! k = Some t
         ∧ tickets (snd (addComment i draft w)) = <[k := t']> (tickets w)
         ∧ fst (getTicketById i (snd (addComment i draft w))) = Some t'
         ∧ comments t' = comments t ++ [c]
         ∧ updatedAt t' = clock w (S (S (clock_reads w)))
         ∧ t' = with_updatedAt (with_comments t (comments t ++ [c]))
                               (updatedAt t')).
Proof.
  split.
  - intros Hnone%getTicketById_None. by apply addComment_absent.
  - intros t [k Hfind]%getTicketById_Some.
    rewrite (addComment_found _ _ _ _ _ Hfind). cbn zeta.
    destruct (find_ticket_Some _ _ _ _ Hfind) as (Hk & Hid & _).
    eexists _, k, _. split_and!; try reflexivity; [done|].
    apply getTicketById_Some. exists k. cbn [snd set_tickets tickets].
    by apply (find_ticket_insert_same _ _ _ t).
Qed.

Example addComment_sample :
  let r := addComment "ticket_2" sample_comment sample_world in
  (c_id <$> fst r) = Some "comment_5000_k3x9q0a1z"
  ∧ (c_timestamp <$> fst r) = Some 5001%Z
  ∧ (updatedAt <$> tickets (snd r)) = [2000%Z; 5002%Z; 2000%Z]
  ∧ (length ∘ comments <$> tickets (snd r)) = [0; 1; 0]
  ∧ addComment "ticket_9" sample_comment sample_world = (None, sample_world).
Proof. vm_compute. repeat split. Qed.

End AddComment.

(** ** The change notifier *)

Section Notifier.
Import TicketsController.

Lemma notify_effect w :
  tickets (snd (notify w)) = tickets w
  ∧ listeners (snd (notify w)) = listeners w
  ∧ invoked (snd (notify w)) = invoked w ++ listeners w.
Proof.
  unfold notify, TicketsModel.syncToStorage, call_listeners,
    StorageService.saveToStorage_tickets.
  run_M. by destruct (isClient w).
Qed.

(** The model's methods do not touch the controller's listeners or the
    record of the calls made to them. *)
Lemma model_createTicket_frame d w :
  listeners (snd (TicketsModel.createTicket d w)) = listeners w
  ∧ invoked (snd (TicketsModel.createTicket d w)) = invoked w.
Proof. done. Qed.

Lemma model_updateTicket_frame i u w :
  listeners (snd (TicketsModel.updateTicket i u w)) = listeners w
  ∧ invoked (snd (TicketsModel.updateTicket i u w)) = invoked w.
Proof.
  destruct (TicketsModel.find_ticket i (tickets w)) as [[k t]|] eqn:Hfind.
  - rewrite (updateTicket_found _ _ _ _ _ Hfind). cbn zeta.
    by destruct (_ && _).
  - by rewrite updateTicket_absent.
Qed.

Lemma model_deleteTicket_frame i w :
  listeners (snd (TicketsModel.deleteTicket i w)) = listeners w
  ∧ invoked (snd (TicketsModel.deleteTicket i w)) = invoked w.
Proof. done. Qed.

Lemma model_addComment_frame i d w :
  listeners (snd (TicketsModel.addComment i d w)) = listeners w
  ∧ invoked (snd (TicketsModel.addComment i d w)) = invoked w.
Proof.
  destruct (TicketsModel.find_ticket i (tickets w)) as [[k t]|] eqn:Hfind.
  - by rewrite (addComment_found _ _ _ _ _ Hfind).
  - by rewrite addComment_absent.
Qed.

Lemma model_changeTicketStatus_frame i s w :
  listeners (snd (TicketsModel.changeTicketStatus i s w)) = listeners w
  ∧ invoked (snd (TicketsModel.changeTicketStatus i s w)) = invoked w.
Proof.
  rewrite changeTicketStatus_run.
  destruct (TicketsModel.find_ticket i (tickets w)) as [[k t]|]; [|done].
  destruct (bool_decide _); [|done]. apply model_updateTicket_frame.
Qed.

Lemma then_notify {A} (m : M A) w :
  listeners (snd (m w)) = listeners w ∧ invoked (snd (m w)) = invoked w →
  listeners (snd ((_ ← m; notify) w)) = listeners w
  ∧ invoked (snd ((_ ← m; notify) w)) = invoked w ++ listeners w.
Proof.
  intros [Hl Hi]. run_M. destruct (m w) as [a w1]. cbn [snd] in *.
  destruct (notify_effect w1) as (_ & Hl1 & Hi1).
  rewrite Hl1, Hi1. by rewrite Hl, Hi.
Qed.

Lemma ask_run q w : ask q w = (tt, w).
Proof. by destruct q. Qed.

Lemma bind_ret_run {A B} (m : M A) (f : A → B) w :
  (a ← m; mret (f a)) w = (f (fst (m w)), snd (m w)).
Proof. run_M. by destruct (m w). Qed.

Lemma controller_changeTicketStatus_run i s w :
  changeTicketStatus i s w =
  let r := TicketsModel.changeTicketStatus i s w in
  (fst r, if fst r then snd (notify (snd r)) else snd r).
Proof.
  unfold changeTicketStatus. run_M.
  destruct (TicketsModel.changeTicketStatus i s w) as [[|] w1]; cbn; [|done].
  by destruct (notify w1).
Qed.

(** One call: the listeners stay, and they are called, each once and
    in order, exactly when the call is a notifying one. *)
Lemma perform_effect c w :
  listeners (snd (perform c w)) = listeners w
  ∧ invoked (snd (perform c w))
    = invoked w ++ (if notifying (c, fst (perform c w)) then listeners w else []).
Proof.
  destruct c as [d|i u|i|i s|i d|q]; cbn [perform notifying];
    rewrite ?(bind_ret_run _ (λ _, None)), ?(bind_ret_run _ Some); cbn [fst snd].
  - apply then_notify, model_createTicket_frame.
  - apply then_notify, model_updateTicket_frame.
  - apply then_notify, model_deleteTicket_frame.
  - rewrite controller_changeTicketStatus_run. cbn zeta. cbn [fst snd].
    destruct (model_changeTicketStatus_frame i s w) as [Hl Hi].
    destruct (TicketsModel.changeTicketStatus i s w) as [[|] w1]; cbn [fst snd] in *.
    + destruct (notify_effect w1) as (_ & Hl1 & Hi1).
      rewrite Hl1, Hi1, Hl, Hi. by rewrite bool_decide_eq_true_2.
    + rewrite Hl, Hi. rewrite bool_decide_eq_false_2 by congruence.
      by rewrite app_nil_r.
  - apply then_notify, model_addComment_frame.
  - rewrite ask_run. cbn. by rewrite app_nil_r.
Qed.

Lemma perform_all_cons c calls w :
  perform_all (c :: calls) w =
  ((c, fst (perform c w)) :: fst (perform_all calls (snd (perform c w))),
   snd (perform_all calls (snd (perform c w)))).
Proof.
  change (perform_all (c :: calls))
    with (r ← perform c; rs ← perform_all calls; mret ((c, r) :: rs)).
  run_M. destruct (perform c w) as [r w1]. cbn [fst snd].
  by destruct (perform_all calls w1).
Qed.

Lemma notifications_app l w w' ls :
  invoked w' = invoked w ++ ls →
  notifications l w' = notifications l w + length (filter (λ x, x = l) ls).
Proof. intros H. unfold notifications. by rewrite H, filter_app, length_app. Qed.

(** A sequence of calls: the listeners stay, and a listener has been
    called once more for each registration it has and each notifying
    call. *)
Lemma perform_all_effect calls : ∀ w,
  listeners (snd (perform_all calls w)) = listeners w
  ∧ ∀ l, notifications l (snd (perform_all calls w))
         = notifications l w
           + length (filter (λ cr, notifying cr = true) (fst (perform_all calls w)))
             * length (filter (λ x, x = l) (listeners w)).
Proof.
  induction calls as [|c calls IH]; intros w.
  - split; [done|]. intros l. cbn. lia.
  - rewrite perform_all_cons. cbn [fst snd].
    destruct (perform_effect c w) as [Hl Hi].
    destruct (IH (snd (perform c w))) as [IHl IHn].
    split; [congruence|]. intros l.
    rewrite IHn, Hl, (notifications_app l w _ _ Hi), filter_cons.
    destruct (notifying (c, fst (perform c w))); case_decide; try done;
      cbn [length filter]; rewrite ?filter_nil; cbn [length]; lia.
Qed.

Lemma Set_add_NoDup l ls : NoDup ls → NoDup (Set_add l ls).
Proof.
  intros Hnd. unfold Set_add. case_decide; [done|].
  apply NoDup_app. split_and!; [done| |apply NoDup_singleton].
  intros x Hx ->%list_elem_of_singleton. done.
Qed.

Lemma Set_add_elem l ls : l ∈ Set_add l ls.
Proof.
  unfold Set_add. case_decide; [done|].
  apply elem_of_app. right. by apply list_elem_of_singleton.
Qed.

Lemma Set_add_again l ls : Set_add l (Set_add l ls) = Set_add l ls.
Proof.
  unfold Set_add at 1. rewrite decide_True; [done|]. apply Set_add_elem.
Qed.

Lemma filter_none {A} (P : A → Prop) `{!∀ x, Decision (P x)} (l : list A) :
  (∀ x, x ∈ l → ¬ P x) → filter P l = [].
Proof.
  induction l as [|x l IH]; intros Hno; [done|].
  rewrite filter_cons_False by (apply Hno; left).
  apply IH. intros y Hy. apply Hno. by right.
Qed.

Lemma registered_once (l : Listener) (ls : list Listener) :
  NoDup ls → l ∈ ls → length (filter (λ x, x = l) ls) = 1.
Proof.
  induction 1 as [|x ls Hx Hnd IH]; [by intros ?%elem_of_nil|].
  intros [->|Hin]%elem_of_cons.
  - rewrite filter_cons_True by done. cbn. f_equal.
    rewrite filter_none; [done|]. by intros y Hy ->.
  - rewrite filter_cons_False; [by apply IH|]. by intros ->.
Qed.

Lemma subscribe_run l w :
  subscribe l w = (unsubscribe_of l, set_listeners (Set_add l (listeners w)) w).
Proof. reflexivity. Qed.

Lemma call_unsubscribe_run l w :
  call_unsubscribe (unsubscribe_of l) w
  = (bool_decide (l ∈ listeners w),
     set_listeners (filter (λ y, y ≠ l) (listeners w)) w).
Proof. reflexivity. Qed.

(** C4, as the specification has it, does not hold: deleting, updating
    or commenting a ticket that does not exist changes neither the array
    nor the stored copy, and the subscriber is called all the same. *)
Lemma notified_without_change :
  let w0 := snd (perform (DeleteTicket "ticket_9") sample_world) in
  let w1 := snd (perform (DeleteTicket "ticket_9") w0) in
  let w2 := snd (perform (UpdateTicket "ticket_9" (TicketsModel.status_update closed)) w1) in
  let w3 := snd (perform (AddComment "ticket_9" sample_comment) w2) in
  listeners w0 = [7]
  ∧ fst (TicketsModel.getTicketById "ticket_9" w0) = None
  ∧ (tickets w1, stored_tickets w1) = (tickets w0, stored_tickets w0)
  ∧ (tickets w2, stored_tickets w2) = (tickets w0, stored_tickets w0)
  ∧ (tickets w3, stored_tickets w3) = (tickets w0, stored_tickets w0)
  ∧ notifications 7 w1 = S (notifications 7 w0)
  ∧ notifications 7 w2 = S (notifications 7 w1)
  ∧ notifications 7 w3 = S (notifications 7 w2).
Proof. vm_compute. repeat split. Qed.

(** C4, amended: a subscriber registered by [subscribe] is called once
    for every call of create, update, delete and add-comment, whether or
    not the call changed anything, once for every change-status call
    that returned [true], and not at all for a change-status call that
    returned [false] or for a read-only query. *)
Theorem subscriber_notified_per_call
    (w : World) (l : Listener) (calls : list Call) :
  NoDup (listeners w) →
  let w1 := snd (subscribe l w) in
  let rs := fst (perform_all calls w1) in
  let w2 := snd (perform_all calls w1) in
  notifications l w2
  = notifications l w + length (filter (λ cr, notifying cr = true) rs).
Proof.
  intros Hnd. cbn zeta. rewrite subscribe_run. cbn [snd].
  destruct (perform_all_effect calls (set_listeners (Set_add l (listeners w)) w))
    as [_ Hn].
  rewrite Hn. cbn [listeners set_listeners].
  rewrite registered_once by auto using Set_add_NoDup, Set_add_elem.
  unfold notifications. cbn [invoked set_listeners]. lia.
Qed.

Lemma subscriber_notified_per_call_witness :
  NoDup (listeners sample_world)
  ∧ notifications 8
      (snd (perform_all
              [ DeleteTicket "ticket_9"; Ask GetStatistics;
                ChangeTicketStatus "ticket_2" resolved;
                ChangeTicketStatus "ticket_2" closed;
                CreateTicket empty_draft; Ask (SearchTickets "login");
                AddComment "ticket_1" sample_comment ]
              (snd (subscribe 8 sample_world))))
    = 4.
Proof.
  assert (Hnd : NoDup (listeners sample_world)) by apply NoDup_singleton.
  split; [exact Hnd|].
  exact (subscriber_notified_per_call sample_world 8 _ Hnd).
Defined.

(** C6, as the specification has it, does not hold: after two
    [subscribe] calls with the same callback there is one registration,
    one mutation calls the callback once, and calling the first handle
    leaves no registration. *)
Lemma subscribe_twice_is_deduplicated :
  let w0 := set_listeners [] sample_world in
  let s1 := subscribe 7 w0 in
  let s2 := subscribe 7 (snd s1) in
  listeners (snd s2) = [7]
  ∧ invoked (snd (createTicket empty_draft (snd s2))) = [7]
  ∧ notifications 7 (snd (createTicket empty_draft (snd s2))) = 1
  ∧ listeners (snd (call_unsubscribe (fst s1) (snd s2))) = []
  ∧ invoked (snd (createTicket empty_draft
                    (snd (call_unsubscribe (fst s1) (snd s2))))) = [].
Proof. vm_compute. repeat split. Qed.

(** C6, amended: the listeners are a set, so a second [subscribe] with
    the same callback adds nothing: there is one registration, a
    successful mutation calls the callback once, and calling either of
    the two handles removes that registration, so the callback is not
    called any more; the registrations of other callbacks stay. *)
Theorem subscribe_twice_registers_once
    (w : World) (l : Listener) (draft : TicketDraft) :
  NoDup (listeners w) →
  let s1 := subscribe l w in
  let s2 := subscribe l (snd s1) in
  let u1 := call_unsubscribe (fst s1) (snd s2) in
  let u2 := call_unsubscribe (fst s2) (snd s2) in
  snd s2 = snd s1
  ∧ length (filter (λ x, x = l) (listeners (snd s2))) = 1
  ∧ notifications l (snd (createTicket draft (snd s2)))
    = S (notifications l (snd s2))
  ∧ fst u1 = true ∧ fst u2 = true
  ∧ (l ∉ listeners (snd u1)) ∧ (l ∉ listeners (snd u2))
  ∧ notifications l (snd (createTicket draft (snd u1))) = notifications l (snd s2)
  ∧ notifications l (snd (createTicket draft (snd u2))) = notifications l (snd s2)
  ∧ ∀ l', l' ≠ l → (l' ∈ listeners (snd u1) ↔ l' ∈ listeners w)
                   ∧ (l' ∈ listeners (snd u2) ↔ l' ∈ listeners w).
Proof.
  intros Hnd. cbn zeta. rewrite !subscribe_run. cbn [fst snd].
  rewrite !call_unsubscribe_run. cbn [fst snd listeners set_listeners].
  rewrite Set_add_again.
  assert (Hone : length (filter (λ x, x = l) (Set_add l (listeners w))) = 1).
  { apply registered_once; auto using Set_add_NoDup, Set_add_elem. }
  assert (Hgone : l ∉ filter (λ y, y ≠ l) (Set_add l (listeners w))).
  { intros [? _]%list_elem_of_filter. done. }
  assert (Hcreate : ∀ w', notifications l (snd (createTicket draft w'))
                          = notifications l w'
                            + length (filter (λ x, x = l) (listeners w'))).
  { intros w'. apply notifications_app.
    apply (then_notify _ w' (model_createTicket_frame draft w')). }
  assert (Hnone : length (filter (λ x, x = l)
                    (filter (λ y, y ≠ l) (Set_add l (listeners w)))) = 0).
  { rewrite filter_none; [done|]. by intros y [? _]%list_elem_of_filter. }
  split_and!; try done.
  - rewrite Hcreate. cbn [listeners set_listeners]. rewrite Hone. lia.
  - by apply bool_decide_eq_true_2, Set_add_elem.
  - by apply bool_decide_eq_true_2, Set_add_elem.
  - rewrite Hcreate. cbn [listeners set_listeners]. rewrite Hnone.
    unfold notifications. cbn. lia.
  - rewrite Hcreate. cbn [listeners set_listeners]. rewrite Hnone.
    unfold notifications. cbn. lia.
  - intros l' Hne.
    assert (l' ∈ filter (λ y, y ≠ l) (Set_add l (listeners w)) ↔ l' ∈ listeners w).
    { rewrite list_elem_of_filter. unfold Set_add.
      case_decide; rewrite ?elem_of_app, ?list_elem_of_singleton; tauto. }
    done.
Qed.

Lemma subscribe_twice_registers_once_witness :
  NoDup (listeners sample_world)
  ∧ notifications 8
      (snd (createTicket empty_draft
              (snd (subscribe 8 (snd (subscribe 8 sample_world))))))
    = 1.
Proof.
  assert (Hnd : NoDup (listeners sample_world)) by apply NoDup_singleton.
  split; [exact Hnd|].
  destruct (subscribe_twice_registers_once sample_world 8 empty_draft Hnd)
    as (_ & _ & Hn & _).
  exact Hn.
Defined.

End Notifier.


(** ** Sorting *)

Section Sorting.
Context {A : Type} (key : A → Z) (cmp : A → A → Z).
Hypothesis cmp_key : ∀ a b, (cmp a b <= 0 ↔ key a <= key b)%Z.

Lemma sort_insert_perm x l : sort_insert cmp x l ≡ₚ x :: l.
Proof.
  induction l as [|y l IH]; [done|]. cbn.
  destruct (cmp x y <=? 0)%Z; [done|]. by rewrite IH, Permutation_swap.
Qed.

Lemma Array_sort_perm l : Array_sort cmp l ≡ₚ l.
Proof.
  induction l as [|x l IH]; [done|]. cbn. fold (Array_sort cmp l).
  by rewrite sort_insert_perm, IH.
Qed.

Lemma sort_insert_sorted x l :
  StronglySorted (λ a b, key a <= key b)%Z l →
  StronglySorted (λ a b, key a <= key b)%Z (sort_insert cmp x l).
Proof.
  induction 1 as [|y l Hsorted IH Hy]; cbn.
  - repeat constructor.
  - destruct (Z.leb_spec (cmp x y) 0) as [Hle|Hgt].
    + apply cmp_key in Hle. constructor; [by constructor|].
      constructor; [done|]. eapply Forall_impl; [exact Hy|].
      cbn. intros; lia.
    + assert (key y < key x)%Z.
      { destruct (Z.le_gt_cases (key x) (key y)) as [Hc|Hc]; [|lia].
        apply cmp_key in Hc. lia. }
      constructor; [done|].
      rewrite sort_insert_perm. constructor; [lia|done].
Qed.

Lemma Array_sort_sorted l :
  StronglySorted (λ a b, key a <= key b)%Z (Array_sort cmp l).
Proof.
  induction l as [|x l IH]; [constructor|]. cbn. fold (Array_sort cmp l).
  by apply sort_insert_sorted.
Qed.

(** The sort is stable: the elements of one key keep their order. *)
Lemma sort_insert_stable v x l :
  filter (λ a, key a = v) (sort_insert cmp x l)
  = filter (λ a, key a = v) (x :: l).
Proof.
  induction l as [|y l IH]; [done|]. cbn.
  destruct (Z.leb_spec (cmp x y) 0) as [Hle|Hgt]; [done|].
  assert (key y ≠ key x).
  { intros Heq. assert (cmp x y <= 0)%Z by (apply cmp_key; lia). lia. }
  rewrite filter_cons, IH, !filter_cons.
  repeat case_decide; first [reflexivity | congruence].
Qed.

Lemma Array_sort_stable v l :
  filter (λ a, key a = v) (Array_sort cmp l) = filter (λ a, key a = v) l.
Proof.
  induction l as [|x l IH]; [done|]. cbn. fold (Array_sort cmp l).
  by rewrite sort_insert_stable, !filter_cons, IH.
Qed.

End Sorting.

Lemma StronglySorted_weaken {A} (R R' : A → A → Prop) (l : list A) :
  (∀ a b, R a b → R' a b) → StronglySorted R l → StronglySorted R' l.
Proof.
  intros HR. induction 1 as [|x l Hsorted IH Hx]; constructor; [done|].
  eapply Forall_impl; [exact Hx|]. auto.
Qed.

(** ** The listings *)

Section Listings.
Import TicketsModel.

Lemma getAllTickets_perm_sorted (w : World) :
  fst (getAllTickets w) ≡ₚ tickets w
  ∧ StronglySorted (λ a b, updatedAt b <= updatedAt a)%Z (fst (getAllTickets w)).
Proof.
  unfold getAllTickets. run_M. cbn [fst snd]. split; [apply Array_sort_perm|].
  eapply StronglySorted_weaken;
    [|apply (Array_sort_sorted (λ t, - updatedAt t)%Z
               (λ a b : Ticket, (updatedAt b - updatedAt a)%Z))].
  - cbn. intros; lia.
  - intros a b. lia.
Qed.

(** X1: [getAllTickets] leaves the collection as it is and returns its
    tickets, each as often as it is there, the most recently updated first;
    tickets updated at the same time come in the order of the collection. *)
Theorem getAllTickets_sorted (w : World) :
  snd (getAllTickets w) = w
  ∧ fst (getAllTickets w) ≡ₚ tickets w
  ∧ StronglySorted (λ a b, updatedAt b <= updatedAt a)%Z (fst (getAllTickets w))
  ∧ ∀ v, filter (λ t, updatedAt t = v) (fst (getAllTickets w))
         = filter (λ t, updatedAt t = v) (tickets w).
Proof.
  unfold getAllTickets. run_M. cbn [fst snd].
  set (cmp := λ a b : Ticket, (updatedAt b - updatedAt a)%Z).
  assert (Hcmp : ∀ a b, (cmp a b <= 0 ↔ - updatedAt a <= - updatedAt b)%Z).
  { intros a b. unfold cmp. lia. }
  split_and!.
  - done.
  - apply Array_sort_perm.
  - eapply StronglySorted_weaken;
      [|apply (Array_sort_sorted (λ t, - updatedAt t)%Z cmp Hcmp)].
    cbn. intros; lia.
  - intros v.
    pose proof (Array_sort_stable (λ t, - updatedAt t)%Z cmp Hcmp (- v)%Z (tickets w)) as H.
    erewrite (list_filter_iff (λ t, updatedAt t = v)),
      (list_filter_iff (λ t, updatedAt t = v) _ (tickets w)); [exact H|..];
      intros t; cbn; lia.
Qed.

(** X2: [getUrgentTickets] returns exactly the tickets of priority urgent
    whose status is open or in-progress, the longest waiting first, and
    leaves the collection as it is. *)
Theorem getUrgentTickets_spec (w : World) :
  snd (getUrgentTickets w) = w
  ∧ (∀ t, t ∈ fst (getUrgentTickets w)
          ↔ t ∈ tickets w ∧ priority t = urgent
            ∧ (status t = open ∨ status t = in_progress))
  ∧ StronglySorted (λ a b, createdAt a <= createdAt b)%Z (fst (getUrgentTickets w)).
Proof.
  unfold getUrgentTickets. run_M. cbn [fst snd].
  split_and!.
  - done.
  - intros t. rewrite Array_sort_perm, list_elem_of_filter. tauto.
  - apply (Array_sort_sorted createdAt). intros a b. lia.
Qed.

(** X3: [getTicketComments] is empty for an id that no ticket has; for
    the id of a ticket it returns that ticket's comments, each once, the
    oldest first, comments of one time in the order they were added. *)
Theorem getTicketComments_spec (w : World) (i : string) :
  snd (getTicketComments i w) = w
  ∧ (fst (getTicketById i w) = None → fst (getTicketComments i w) = [])
  ∧ ∀ t, fst (getTicketById i w) = Some t →
      fst (getTicketComments i w) ≡ₚ comments t
      ∧ StronglySorted (λ a b, c_timestamp a <= c_timestamp b)%Z
                       (fst (getTicketComments i w))
      ∧ ∀ v, filter (λ c, c_timestamp c = v) (fst (getTicketComments i w))
             = filter (λ c, c_timestamp c = v) (comments t).
Proof.
  unfold getTicketComments. run_M. rewrite getTicketById_run. cbn [fst snd].
  split_and!.
  - done.
  - by intros ->.
  - intros t ->.
    assert (Hcmp : ∀ a b : Comment,
              (c_timestamp a - c_timestamp b <= 0 ↔ c_timestamp a <= c_timestamp b)%Z)
      by (intros; lia).
    split_and!.
    + apply Array_sort_perm.
    + by apply (Array_sort_sorted c_timestamp).
    + intros v. by apply (Array_sort_stable c_timestamp).
Qed.

(** X4: the recent tickets of the dashboard are the first six of
    [getAllTickets], all of them when there are fewer: no ticket left out
    was updated after one that is shown. *)
Theorem recentTickets_most_recent (w : World) :
  ∃ rest,
    fst (getAllTickets w) = fst (Views.recentTickets w) ++ rest
    ∧ fst (Views.recentTickets w) ++ rest ≡ₚ tickets w
    ∧ length (fst (Views.recentTickets w)) = min 6 (length (tickets w))
    ∧ ∀ a b, a ∈ fst (Views.recentTickets w) → b ∈ rest →
             (updatedAt b <= updatedAt a)%Z.
Proof.
  destruct (getAllTickets_perm_sorted w) as (Hperm & Hsorted).
  exists (skipn 6 (fst (getAllTickets w))).
  assert (Hrecent : fst (Views.recentTickets w) = take 6 (fst (getAllTickets w)))
    by reflexivity.
  rewrite Hrecent, take_drop. split_and!.
  - done.
  - done.
  - by rewrite length_take, Hperm.
  - intros a b Ha Hb.
    rewrite <- (take_drop 6 (fst (getAllTickets w))) in Hsorted.
    by apply (StronglySorted_app_1_elem_of _ _ _ _ _ Hsorted).
Qed.

Lemma sublist_filter_trans {A} (P : A → Prop) `{!∀ x, Decision (P x)} (l k : list A) :
  l `sublist_of` k → filter P l `sublist_of` k.
Proof. intros Hl. etrans; [apply sublist_filter|done]. Qed.

(** X5: the list of the tickets view.  It leaves the collection as it is
    and is a subsequence of [getAllTickets], so the most recently updated
    come first.  A ticket is listed exactly when it is in the collection,
    has the selected category, priority and status, where one is selected,
    and, for a search term that is not empty, has the id of a ticket that
    [searchTickets] finds.  With no term and no selection the list is
    [getAllTickets]. *)
Theorem filteredTickets_spec (w : World) (term : string)
    (c : option TicketCategory) (p : option TicketPriority)
    (s : option TicketStatus) :
  snd (Views.filteredTickets term c p s w) = w
  ∧ fst (Views.filteredTickets term c p s w) `sublist_of` fst (getAllTickets w)
  ∧ (∀ t, t ∈ fst (Views.filteredTickets term c p s w)
          ↔ t ∈ tickets w
            ∧ (term = "" ∨ ∃ sr, sr ∈ fst (searchTickets term w) ∧ id sr = id t)
            ∧ (∀ c', c = Some c' → category t = c')
            ∧ (∀ p', p = Some p' → priority t = p')
            ∧ (∀ s', s = Some s' → status t = s'))
  ∧ Views.filteredTickets "" None None None w = getAllTickets w.
Proof.
  split_and!; [| | |reflexivity].
  - unfold Views.filteredTickets, TicketsController.getAllTickets,
      TicketsController.searchTickets, getAllTickets, searchTickets.
    run_M. by destruct (bool_decide (term ≠ "")).
  - unfold Views.filteredTickets, TicketsController.getAllTickets,
      TicketsController.searchTickets, getAllTickets, searchTickets.
    run_M. cbn [fst snd].
    destruct (bool_decide (term ≠ "")); cbn [fst snd];
      destruct c, p, s; repeat apply sublist_filter_trans; done.
  - intros t.
    unfold Views.filteredTickets, TicketsController.getAllTickets,
      TicketsController.searchTickets, getAllTickets, searchTickets.
    run_M. cbn [fst snd].
    destruct (decide (term = "")) as [->|Hne].
    + rewrite bool_decide_eq_false_2 by (intros H; by apply H). cbn [fst snd].
      destruct c, p, s; rewrite ?list_elem_of_filter, Array_sort_perm;
        intuition (try congruence; eauto).
    + rewrite bool_decide_eq_true_2 by done. cbn [fst snd].
      destruct c, p, s;
        rewrite ?list_elem_of_filter, Exists_exists, Array_sort_perm;
        intuition (try congruence; eauto).
Qed.

End Listings.

(** ** Updating, deleting and creating *)

Section Mutations.
Import TicketsModel.

Lemma set_tickets_same w : set_tickets (tickets w) w = w.
Proof. by destruct w. Qed.

Lemma find_ticket_None j ts :
  find_ticket j ts = None ↔ ∀ t, t ∈ ts → id t ≠ j.
Proof. unfold find_ticket. by rewrite list_find_None, Forall_forall. Qed.

Lemma find_ticket_cons j y ts :
  find_ticket j (y :: ts)
  = if decide (id y = j) then Some (0, y)
    else prod_map S (λ t : Ticket, t) <$> find_ticket j ts.
Proof. reflexivity. Qed.

Lemma find_ticket_insert_ne j ts : ∀ k t t',
  ts !! k = Some t → id t ≠ j → id t' ≠ j →
  find_ticket j (<[k := t']> ts) = find_ticket j ts.
Proof.
  induction ts as [|y ts IH]; intros k t t' Hk Ht Ht'; [done|].
  destruct k as [|k].
  - injection Hk as ->.
    change (<[0 := t']> (t :: ts)) with (t' :: ts).
    by rewrite !find_ticket_cons, !decide_False.
  - change (<[S k := t']> (y :: ts)) with (y :: <[k := t']> ts).
    rewrite !find_ticket_cons. by rewrite (IH k t t').
Qed.

(** X6: [updateTicket] on an id that no ticket has returns [null] and
    changes nothing, the clock is not even read.  On the id of a ticket it
    returns the merged ticket and puts it at the place of the old one: the
    array keeps its length and its other places, and [updatedAt] is the
    clock's time, whatever [updatedAt] the patch carries. *)
Theorem updateTicket_spec (w : World) (i : string) (u : PartialTicket) :
  (fst (getTicketById i w) = None → updateTicket i u w = (None, w))
  ∧ ∀ k t, find_ticket i (tickets w) = Some (k, t) →
      ∃ t', fst (updateTicket i u w) = Some t'
            ∧ tickets (snd (updateTicket i u w)) = <[k := t']> (tickets w)
            ∧ tickets (snd (updateTicket i u w)) !! k = Some t'
            ∧ length (tickets (snd (updateTicket i u w))) = length (tickets w)
            ∧ (∀ j, j ≠ k → tickets (snd (updateTicket i u w)) !! j = tickets w !! j)
            ∧ updatedAt t' = clock w (clock_reads w)
            ∧ title t' = default (title t) (u_title u)
            ∧ status t' = default (status t) (u_status u)
            ∧ comments t' = default (comments t) (u_comments u).
Proof.
  split.
  - intros Hnone%getTicketById_None. by apply updateTicket_absent.
  - intros k t Hfind. rewrite (updateTicket_found _ _ _ _ _ Hfind). cbn zeta.
    destruct (find_ticket_Some _ _ _ _ Hfind) as (Hk & _).
    apply lookup_lt_Some in Hk.
    destruct (_ && _); cbn [fst snd tickets set_tickets];
      (eexists; split_and!; [reflexivity|reflexivity| |apply length_insert| |done..];
       [by apply list_lookup_insert_eq
       |by intros j Hj; apply list_lookup_insert_ne]).
Qed.

(** X7: [updateTicket] does not look at the transition table.  A patch
    that holds only a status puts a ticket into that status from any
    status, open to resolved for one, and a ticket that becomes resolved
    this way gets the stamp it lacks. *)
Theorem updateTicket_ignores_transition_table
    (w : World) (i : string) (t : Ticket) (s : TicketStatus) :
  fst (getTicketById i w) = Some t →
  ∃ t', fst (updateTicket i (status_update s) w) = Some t'
        ∧ fst (getTicketById i (snd (updateTicket i (status_update s) w))) = Some t'
        ∧ status t' = s
        ∧ resolvedAt t'
          = if bool_decide (s = resolved) && negb (truthy (resolvedAt t))
            then Some (clock w (S (clock_reads w)))
            else resolvedAt t.
Proof.
  intros [k Hfind]%getTicketById_Some.
  rewrite (updateTicket_found _ _ _ _ _ Hfind). cbn zeta.
  rewrite merge_status_update. cbn [u_status status_update resolvedAt].
  destruct (find_ticket_Some _ _ _ _ Hfind) as (_ & Hid & _).
  assert (Hs : bool_decide (Some s = Some resolved) = bool_decide (s = resolved)).
  { apply bool_decide_ext. split; congruence. }
  rewrite Hs.
  destruct (bool_decide (s = resolved) && negb (truthy (resolvedAt t)));
    cbn [fst snd]; eexists; (split_and!; [reflexivity| |reflexivity..]);
    apply getTicketById_Some; exists k; cbn [tickets set_tickets];
    by apply (find_ticket_insert_same _ _ _ t).
Qed.

Lemma updateTicket_ignores_transition_table_witness :
  fst (getTicketById "ticket_2" sample_world)
    = Some (sample_ticket "ticket_2" open None)
  ∧ ∃ t', fst (updateTicket "ticket_2" (status_update resolved) sample_world) = Some t'
          ∧ fst (getTicketById "ticket_2"
                   (snd (updateTicket "ticket_2" (status_update resolved) sample_world)))
            = Some t'
          ∧ status t' = resolved
          ∧ resolvedAt t' = Some 5001%Z.
Proof.
  split; [reflexivity|].
  exact (updateTicket_ignores_transition_table sample_world "ticket_2"
           (sample_ticket "ticket_2" open None) resolved eq_refl).
Defined.

(** X8: [deleteTicket] returns [true] exactly when some ticket has the
    id.  Afterwards no ticket has it: [getTicketById] returns [null] and
    [getTicketComments] is empty.  When no ticket had the id, nothing has
    changed. *)
Theorem deleteTicket_spec (w : World) (i : string) :
  (fst (deleteTicket i w) = true ↔ fst (getTicketById i w) ≠ None)
  ∧ fst (getTicketById i (snd (deleteTicket i w))) = None
  ∧ fst (getTicketComments i (snd (deleteTicket i w))) = []
  ∧ (fst (getTicketById i w) = None → deleteTicket i w = (false, w)).
Proof.
  assert (Hgone : fst (getTicketById i (snd (deleteTicket i w))) = None).
  { apply getTicketById_None, find_ticket_None.
    intros t Ht%list_elem_of_filter. tauto. }
  assert (Hkeep : fst (getTicketById i w) = None →
                  filter (λ t, id t ≠ i) (tickets w) = tickets w).
  { intros Hnone%getTicketById_None. rewrite find_ticket_None in Hnone.
    induction (tickets w) as [|t ts IH]; [done|].
    rewrite filter_cons_True by (apply Hnone; left).
    f_equal. apply IH. intros t' Ht'. apply Hnone. by right. }
  split_and!.
  - rewrite deleteTicket_run. cbn [fst]. rewrite bool_decide_eq_true. split.
    + intros Hlt Hnone. rewrite (Hkeep Hnone) in Hlt. lia.
    + intros Hsome.
      destruct (fst (getTicketById i w)) as [t|] eqn:Hget; [|done].
      apply getTicketById_Some in Hget as [k Hfind].
      destruct (find_ticket_Some _ _ _ _ Hfind) as (Hk & Hid & _).
      apply (length_filter_lt _ _ t); [by eapply list_elem_of_lookup_2|].
      intros Hne. by apply Hne.
  - done.
  - unfold getTicketComments. run_M.
    destruct (getTicketById i (snd (deleteTicket i w))) as [o w'] eqn:Hget.
    cbn [fst] in *. by rewrite Hgone.
  - intros Hnone. rewrite deleteTicket_run, (Hkeep Hnone), set_tickets_same.
    by rewrite bool_decide_eq_false_2 by lia.
Qed.

Lemma createTicket_tickets (w : World) (d : TicketDraft) :
  tickets (snd (createTicket d w)) = tickets w ++ [fst (createTicket d w)].
Proof. reflexivity. Qed.

(** X9: after [createTicket] every ticket that [getTicketById] found is
    still found under its id, the array is one longer, and the new ticket
    is found under its id when no older ticket has that id; when one has,
    the older ticket is the one found. *)
Theorem createTicket_then_getTicketById (w : World) (d : TicketDraft) :
  length (tickets (snd (createTicket d w))) = S (length (tickets w))
  ∧ (∀ j t0, fst (getTicketById j w) = Some t0 →
             fst (getTicketById j (snd (createTicket d w))) = Some t0)
  ∧ (fst (getTicketById (id (fst (createTicket d w))) w) = None →
     fst (getTicketById (id (fst (createTicket d w))) (snd (createTicket d w)))
     = Some (fst (createTicket d w))).
Proof.
  pose proof (createTicket_tickets w d) as Happ.
  split_and!.
  - rewrite Happ, length_app. cbn. lia.
  - intros j t0 [k Hfind]%getTicketById_Some.
    apply getTicketById_Some. exists k. rewrite Happ.
    by apply list_find_app_l.
  - intros Hnone%getTicketById_None.
    apply getTicketById_Some. exists (length (tickets w)).
    rewrite Happ. unfold find_ticket in *.
    rewrite list_find_app_r by done. cbn.
    rewrite decide_True by done. cbn. f_equal.
Qed.

End Mutations.

(** ** Comments and status changes, composed *)

Section Composition.
Import TicketsModel.

Lemma getTicketComments_run i w :
  fst (getTicketComments i w)
  = match find_ticket i (tickets w) with
    | Some (_, t) => Array_sort (λ a b, c_timestamp a - c_timestamp b)%Z (comments t)
    | None => []
    end.
Proof.
  unfold getTicketComments. run_M. rewrite getTicketById_run. cbn [fst snd].
  by destruct (find_ticket i (tickets w)) as [[k t]|].
Qed.

(** X10: after [addComment] on the id of a ticket, [getTicketComments] of
    that id returns the comments it returned before and the new one, and
    the comments of every other id are as before. *)
Theorem addComment_then_getTicketComments
    (w : World) (i : string) (d : CommentDraft) (t : Ticket) :
  fst (getTicketById i w) = Some t →
  ∃ c, fst (addComment i d w) = Some c
       ∧ fst (getTicketComments i (snd (addComment i d w)))
         ≡ₚ c :: fst (getTicketComments i w)
       ∧ length (fst (getTicketComments i (snd (addComment i d w))))
         = S (length (fst (getTicketComments i w)))
       ∧ ∀ j, j ≠ i → fst (getTicketComments j (snd (addComment i d w)))
                      = fst (getTicketComments j w).
Proof.
  intros [k Hfind]%getTicketById_Some.
  destruct (find_ticket_Some _ _ _ _ Hfind) as (Hk & Hid & _).
  rewrite (addComment_found _ _ _ _ _ Hfind). cbn zeta. cbn [fst snd].
  eexists. split; [reflexivity|].
  rewrite !getTicketComments_run. cbn [tickets set_tickets].
  erewrite find_ticket_insert_same; [|exact Hfind|exact Hid]. rewrite Hfind.
  cbn [comments with_updatedAt with_comments].
  assert (Hperm : ∀ c, Array_sort (λ a b, c_timestamp a - c_timestamp b)%Z
                         (comments t ++ [c])
                       ≡ₚ c :: Array_sort (λ a b, c_timestamp a - c_timestamp b)%Z
                                 (comments t)).
  { intros c. rewrite !Array_sort_perm. by rewrite Permutation_app_comm. }
  split_and!.
  - apply Hperm.
  - by rewrite Hperm.
  - intros j Hj. rewrite !getTicketComments_run. cbn [tickets set_tickets].
    rewrite (find_ticket_insert_ne j _ k t); [done..|congruence|cbn; congruence].
Qed.

Lemma addComment_then_getTicketComments_witness :
  fst (getTicketById "ticket_2" sample_world)
    = Some (sample_ticket "ticket_2" open None)
  ∧ ∃ c, fst (addComment "ticket_2" sample_comment sample_world) = Some c
         ∧ length (fst (getTicketComments "ticket_2"
                          (snd (addComment "ticket_2" sample_comment sample_world))))
           = 1.
Proof.
  split; [reflexivity|].
  destruct (addComment_then_getTicketComments sample_world "ticket_2"
              sample_comment (sample_ticket "ticket_2" open None) eq_refl)
    as (c & Hc & _ & Hlen & _).
  exists c. split; [exact Hc|exact Hlen].
Defined.

Lemma changeTicketStatus_true i s w :
  fst (changeTicketStatus i s w) = true →
  ∃ k t, find_ticket i (tickets w) = Some (k, t) ∧ s ∈ validTransitions (status t).
Proof.
  rewrite changeTicketStatus_run.
  destruct (find_ticket i (tickets w)) as [[k t]|]; [|done].
  destruct (decide (s ∈ validTransitions (status t))) as [Hv|Hv].
  - intros _. by exists k, t.
  - by rewrite bool_decide_eq_false_2.
Qed.

Lemma changeTicketStatus_exact i s w k t :
  find_ticket i (tickets w) = Some (k, t) →
  s ∈ validTransitions (status t) →
  ∃ r, tickets (snd (changeTicketStatus i s w))
       = <[k := mkTicket (id t) (title t) (description t) (category t)
                         (priority t) s (author t) (assignedTo t) (createdAt t)
                         (clock w (clock_reads w)) r (comments t)]> (tickets w)
       ∧ (clock_reads w < clock_reads (snd (changeTicketStatus i s w)))%nat
       ∧ clock (snd (changeTicketStatus i s w)) = clock w.
Proof.
  intros Hfind Hvalid.
  rewrite changeTicketStatus_run, Hfind, bool_decide_eq_true_2 by done.
  rewrite (updateTicket_found _ _ _ _ _ Hfind). cbn zeta.
  rewrite merge_status_update.
  destruct (_ && _); cbn [snd tickets set_tickets with_resolvedAt];
    eexists; (split_and!; [reflexivity|cbn; lia|reflexivity]).
Qed.

(** X11: a status change that succeeds touches one ticket, the one
    [getTicketById] finds: it gets the new status and the clock's time as
    [updatedAt]; its id, title, description, category, priority, author,
    assignee, creation time and comments stay, and so does every other
    place of the array. *)
Theorem changeTicketStatus_frame (w : World) (i : string) (s : TicketStatus) :
  fst (changeTicketStatus i s w) = true →
  ∃ k t t',
    find_ticket i (tickets w) = Some (k, t)
    ∧ tickets (snd (changeTicketStatus i s w)) !! k = Some t'
    ∧ status t' = s ∧ updatedAt t' = clock w (clock_reads w)
    ∧ id t' = id t ∧ title t' = title t ∧ description t' = description t
    ∧ category t' = category t ∧ priority t' = priority t
    ∧ author t' = author t ∧ assignedTo t' = assignedTo t
    ∧ createdAt t' = createdAt t ∧ comments t' = comments t
    ∧ length (tickets (snd (changeTicketStatus i s w))) = length (tickets w)
    ∧ ∀ j, j ≠ k → tickets (snd (changeTicketStatus i s w)) !! j = tickets w !! j.
Proof.
  intros (k & t & Hfind & Hvalid)%changeTicketStatus_true.
  destruct (changeTicketStatus_exact _ _ _ _ _ Hfind Hvalid) as (r & -> & _).
  destruct (find_ticket_Some _ _ _ _ Hfind) as (Hk%lookup_lt_Some & _).
  exists k, t, (mkTicket (id t) (title t) (description t) (category t)
                  (priority t) s (author t) (assignedTo t) (createdAt t)
                  (clock w (clock_reads w)) r (comments t)).
  split_and!; [done| |reflexivity..| |].
  - by apply list_lookup_insert_eq.
  - apply length_insert.
  - intros j Hj. by apply list_lookup_insert_ne.
Qed.

Lemma changeTicketStatus_frame_witness :
  fst (changeTicketStatus "ticket_2" closed sample_world) = true
  ∧ length (tickets (snd (changeTicketStatus "ticket_2" closed sample_world))) = 3.
Proof.
  split; [reflexivity|].
  destruct (changeTicketStatus_frame sample_world "ticket_2" closed eq_refl)
    as (k & t & t' & _ & _ & _ & _ & _ & _ & _ & _ & _ & _ & _ & _ & _ & Hlen & _).
  exact Hlen.
Defined.

Lemma count_insert {A} (P : A → Prop) `{!∀ x, Decision (P x)}
    (l : list A) (k : nat) (x y : A) :
  l !! k = Some x →
  length (filter P (<[k := y]> l)) + (if decide (P x) then 1 else 0)
  = length (filter P l) + (if decide (P y) then 1 else 0).
Proof.
  intros Hk. rewrite insert_take_drop by by eapply lookup_lt_Some.
  rewrite <- (take_drop_middle l k x Hk) at 3.
  rewrite !filter_app, !filter_cons, !length_app.
  repeat case_decide; cbn [length]; lia.
Qed.

(** X12: a status change that succeeds moves one ticket from the count
    of its old status to the count of the new one: the lists by status
    change their lengths by that one ticket, the lists by priority and by
    category and the total keep theirs. *)
Theorem changeTicketStatus_moves_one_count
    (w : World) (i : string) (t : Ticket) (s : TicketStatus) :
  fst (getTicketById i w) = Some t →
  fst (changeTicketStatus i s w) = true →
  let w' := snd (changeTicketStatus i s w) in
  status t ≠ s
  ∧ (∀ s', length (fst (filterByStatus s' w'))
           + (if decide (status t = s') then 1 else 0)
           = length (fst (filterByStatus s' w))
             + (if decide (s = s') then 1 else 0))
  ∧ (∀ p, length (fst (filterByPriority p w')) = length (fst (filterByPriority p w)))
  ∧ (∀ c, length (fst (filterByCategory c w')) = length (fst (filterByCategory c w)))
  ∧ stat_total (fst (getStatistics w')) = stat_total (fst (getStatistics w)).
Proof.
  intros [k0 Hfind0]%getTicketById_Some (k & t1 & Hfind & Hvalid)%changeTicketStatus_true.
  assert (t1 = t ∧ k0 = k) as [-> ->] by (split; congruence).
  cbn zeta.
  destruct (changeTicketStatus_exact _ _ _ _ _ Hfind Hvalid) as (r & Hts & _).
  destruct (find_ticket_Some _ _ _ _ Hfind) as (Hk & _).
  unfold filterByStatus, filterByPriority, filterByCategory, getStatistics.
  run_M. cbn [fst stat_total]. rewrite Hts.
  split_and!.
  - intros Heq. rewrite <- Heq in Hvalid. by apply no_self_transition in Hvalid.
  - intros s'.
    pose proof (count_insert (λ t, status t = s') (tickets w) k t
                  (mkTicket (id t) (title t) (description t) (category t)
                     (priority t) s (author t) (assignedTo t) (createdAt t)
                     (clock w (clock_reads w)) r (comments t)) Hk) as H.
    cbn [status] in H. exact H.
  - intros p.
    pose proof (count_insert (λ t, priority t = p) (tickets w) k t
                  (mkTicket (id t) (title t) (description t) (category t)
                     (priority t) s (author t) (assignedTo t) (createdAt t)
                     (clock w (clock_reads w)) r (comments t)) Hk) as H.
    cbn [priority] in H. destruct (decide (priority t = p)); lia.
  - intros c.
    pose proof (count_insert (λ t, category t = c) (tickets w) k t
                  (mkTicket (id t) (title t) (description t) (category t)
                     (priority t) s (author t) (assignedTo t) (createdAt t)
                     (clock w (clock_reads w)) r (comments t)) Hk) as H.
    cbn [category] in H. destruct (decide (category t = c)); lia.
  - apply length_insert.
Qed.

Lemma changeTicketStatus_moves_one_count_witness :
  fst (getTicketById "ticket_2" sample_world)
    = Some (sample_ticket "ticket_2" open None)
  ∧ fst (changeTicketStatus "ticket_2" closed sample_world) = true
  ∧ length (fst (filterByStatus closed
                   (snd (changeTicketStatus "ticket_2" closed sample_world)))) + 0
    = length (fst (filterByStatus closed sample_world)) + 1.
Proof.
  split; [reflexivity|]. split; [reflexivity|].
  destruct (changeTicketStatus_moves_one_count sample_world "ticket_2"
              (sample_ticket "ticket_2" open None) closed eq_refl eq_refl)
    as (_ & Hcount & _).
  exact (Hcount closed).
Defined.

End Composition.

(** ** Paths through the workflow *)

Section Paths.
Import TicketsModel.

Lemma route_legal from target :
  (length (route from target) ≤ 3)%nat
  ∧ legal_path from (route from target) = true
  ∧ default from (last (route from target)) = target.
Proof. destruct from, target; vm_compute; repeat split; lia. Qed.

Lemma walk_along path : ∀ w i k t,
  find_ticket i (tickets w) = Some (k, t) →
  legal_path (status t) path = true →
  ∃ t', find_ticket i (tickets (changeStatuses (walk i path) w)) = Some (k, t')
        ∧ status t' = default (status t) (last path).
Proof.
  induction path as [|s path IH]; intros w i k t Hfind Hlegal.
  - exists t. by split.
  - cbn [legal_path] in Hlegal. apply andb_prop in Hlegal as [Hs Hrest].
    apply bool_decide_eq_true in Hs.
    destruct (changeTicketStatus_valid _ _ _ _ _ Hfind Hs)
      as (t1 & _ & Hts & Hid & Hst & _).
    destruct (find_ticket_Some _ _ _ _ Hfind) as (_ & Hi & _).
    assert (Hfind1 : find_ticket i (tickets (snd (changeTicketStatus i s w)))
                     = Some (k, t1)).
    { rewrite Hts. apply (find_ticket_insert_same _ _ _ t); congruence. }
    rewrite <- Hst in Hrest.
    destruct (IH _ _ _ _ Hfind1 Hrest) as (t' & Hfind' & Hst').
    exists t'. split; [exact Hfind'|].
    rewrite Hst', Hst, last_cons. by destruct (last path).
Qed.

(** X13: the workflow has no dead end.  From the status a ticket has, every
    status can be reached by at most three [changeTicketStatus] calls that
    each follow an edge of the table. *)
Theorem every_status_reachable
    (w : World) (i : string) (t : Ticket) (target : TicketStatus) :
  fst (getTicketById i w) = Some t →
  ∃ path t',
    (length path ≤ 3)%nat
    ∧ legal_path (status t) path = true
    ∧ fst (getTicketById i (changeStatuses (walk i path) w)) = Some t'
    ∧ status t' = target.
Proof.
  intros [k Hfind]%getTicketById_Some.
  destruct (route_legal (status t) target) as (Hlen & Hlegal & Hlast).
  destruct (walk_along _ _ _ _ _ Hfind Hlegal) as (t' & Hfind' & Hst').
  exists (route (status t) target), t'.
  split_and!; [done|done| |congruence].
  apply getTicketById_Some. by exists k.
Qed.

Lemma every_status_reachable_witness :
  fst (getTicketById "ticket_3" sample_world)
    = Some (sample_ticket "ticket_3" resolved (Some 1500%Z))
  ∧ ∃ path t',
      (length path ≤ 3)%nat
      ∧ legal_path resolved path = true
      ∧ fst (getTicketById "ticket_3" (changeStatuses (walk "ticket_3" path) sample_world))
        = Some t'
      ∧ status t' = waiting.
Proof.
  split; [reflexivity|].
  exact (every_status_reachable sample_world "ticket_3"
           (sample_ticket "ticket_3" resolved (Some 1500%Z)) waiting eq_refl).
Defined.

End Paths.

(** ** Time stamps *)

Section Timestamps.
Import TicketsModel.

(** What a call may do to keep the time stamps in order: leave the clock
    as it is, read it some more, and have as tickets old ones, old ones
    updated at a time of the clock still to come, and new ones created and
    updated at times read during the call. *)
Lemma timestamps_step w w' :
  monotone_clock w → timestamps_in_order w →
  clock w' = clock w → (clock_reads w ≤ clock_reads w')%nat →
  (∀ t', t' ∈ tickets w' →
     t' ∈ tickets w
     ∨ (∃ t n, t ∈ tickets w ∧ createdAt t' = createdAt t
               ∧ (clock_reads w ≤ n)%nat ∧ updatedAt t' = clock w n)
     ∨ (∃ n m, (n ≤ m)%nat ∧ (m < clock_reads w')%nat
               ∧ createdAt t' = clock w n ∧ updatedAt t' = clock w m)) →
  monotone_clock w' ∧ timestamps_in_order w'.
Proof.
  intros Hmono Hord Hclock Hreads Hts. split.
  - unfold monotone_clock. rewrite Hclock. exact Hmono.
  - intros t' Ht'. rewrite Hclock.
    destruct (Hts t' Ht') as [Hold|[(t & n & Ht & Hc & Hn & Hu)|(n & m & Hnm & Hm & Hc & Hu)]].
    + destruct (Hord t' Hold) as [H1 H2]. split; [done|].
      intros n Hn. apply H2. lia.
    + destruct (Hord t Ht) as [H1 H2]. rewrite Hc, Hu. split; [by apply H2|].
      intros n' Hn'. apply H2. lia.
    + rewrite Hc, Hu. split; [by apply Hmono|].
      intros n' Hn'. apply Hmono. lia.
Qed.

Lemma elem_of_insert_inv {A} (l : list A) k x y :
  y ∈ <[k := x]> l → y = x ∨ y ∈ l.
Proof.
  intros (j & Hj)%list_elem_of_lookup.
  apply list_lookup_insert_Some in Hj as [(_ & -> & _)|(_ & Hj)]; [by left|].
  right. by eapply list_elem_of_lookup_2.
Qed.

Lemma then_notify_same {A} (m : M A) w :
  tickets (snd ((_ ← m; TicketsController.notify) w)) = tickets (snd (m w))
  ∧ clock (snd ((_ ← m; TicketsController.notify) w)) = clock (snd (m w))
  ∧ clock_reads (snd ((_ ← m; TicketsController.notify) w)) = clock_reads (snd (m w)).
Proof.
  run_M. destruct (m w) as [a w1]. cbn [snd].
  unfold TicketsController.notify, syncToStorage, TicketsController.call_listeners,
    StorageService.saveToStorage_tickets.
  run_M. by destruct (isClient w1).
Qed.

Lemma createTicket_step d w :
  monotone_clock w → timestamps_in_order w →
  monotone_clock (snd (createTicket d w))
  ∧ timestamps_in_order (snd (createTicket d w)).
Proof.
  intros Hmono Hord.
  apply (timestamps_step w); [done|done|done|unfold createTicket; run_M; cbn; lia|].
  rewrite createTicket_tickets.
  intros t' [Hold|Hnew%list_elem_of_singleton]%elem_of_app; [by left|].
  subst t'.
  right; right. exists (S (clock_reads w)), (S (S (clock_reads w))).
  unfold createTicket. run_M. cbn. split_and!; [lia|lia|done|done].
Qed.

Lemma updateTicket_step i u w :
  u_createdAt u = None →
  monotone_clock w → timestamps_in_order w →
  monotone_clock (snd (updateTicket i u w))
  ∧ timestamps_in_order (snd (updateTicket i u w)).
Proof.
  intros Hu Hmono Hord.
  destruct (find_ticket i (tickets w)) as [[k t]|] eqn:Hfind.
  - destruct (find_ticket_Some _ _ _ _ Hfind) as (Hk%list_elem_of_lookup_2 & _).
    rewrite (updateTicket_found _ _ _ _ _ Hfind). cbn zeta.
    destruct (_ && _); cbn [snd];
      (apply (timestamps_step w); [done|done|done|cbn; lia|];
       cbn [tickets set_tickets];
       intros t' [->|Hold]%elem_of_insert_inv; [|by left];
       right; left; exists t, (clock_reads w); cbn; rewrite Hu; by split_and!).
  - by rewrite updateTicket_absent.
Qed.

Lemma deleteTicket_step i w :
  monotone_clock w → timestamps_in_order w →
  monotone_clock (snd (deleteTicket i w))
  ∧ timestamps_in_order (snd (deleteTicket i w)).
Proof.
  intros Hmono Hord. rewrite deleteTicket_run. cbn [snd].
  apply (timestamps_step w); [done|done|done|cbn; lia|].
  cbn [tickets set_tickets].
  intros t' [_ Ht']%list_elem_of_filter. by left.
Qed.

Lemma addComment_step i d w :
  monotone_clock w → timestamps_in_order w →
  monotone_clock (snd (addComment i d w))
  ∧ timestamps_in_order (snd (addComment i d w)).
Proof.
  intros Hmono Hord.
  destruct (find_ticket i (tickets w)) as [[k t]|] eqn:Hfind.
  - destruct (find_ticket_Some _ _ _ _ Hfind) as (Hk%list_elem_of_lookup_2 & _).
    rewrite (addComment_found _ _ _ _ _ Hfind). cbn zeta. cbn [snd].
    apply (timestamps_step w); [done|done|done|cbn; lia|].
    cbn [tickets set_tickets set_entropy_reads set_clock_reads].
    intros t' [->|Hold]%elem_of_insert_inv; [|by left].
    right; left. exists t, (S (S (clock_reads w))). cbn. split_and!; [done|done|lia|done].
  - by rewrite addComment_absent.
Qed.

Lemma changeTicketStatus_step i s w :
  monotone_clock w → timestamps_in_order w →
  monotone_clock (snd (changeTicketStatus i s w))
  ∧ timestamps_in_order (snd (changeTicketStatus i s w)).
Proof.
  intros Hmono Hord. rewrite changeTicketStatus_run.
  destruct (find_ticket i (tickets w)) as [[k t]|]; [|done].
  destruct (bool_decide _); [|done]. by apply updateTicket_step.
Qed.

Lemma notify_keeps (P : World → Prop) {A} (m : M A) w :
  (∀ w1 w2, tickets w2 = tickets w1 → clock w2 = clock w1 →
            clock_reads w2 = clock_reads w1 → P w1 → P w2) →
  P (snd (m w)) → P (snd ((_ ← m; TicketsController.notify) w)).
Proof.
  intros HP H. destruct (then_notify_same m w) as (Ht & Hc & Hr).
  by apply (HP (snd (m w))).
Qed.

Lemma in_order_ext w1 w2 :
  tickets w2 = tickets w1 → clock w2 = clock w1 →
  clock_reads w2 = clock_reads w1 →
  monotone_clock w1 ∧ timestamps_in_order w1 →
  monotone_clock w2 ∧ timestamps_in_order w2.
Proof.
  unfold monotone_clock, timestamps_in_order.
  intros -> -> ->. done.
Qed.

Lemma perform_step c w :
  keeps_createdAt c →
  monotone_clock w ∧ timestamps_in_order w →
  monotone_clock (snd (perform c w)) ∧ timestamps_in_order (snd (perform c w)).
Proof.
  intros Hc [Hmono Hord].
  destruct c as [d|i u|i|i s|i d|q]; cbn [perform];
    rewrite ?(bind_ret_run _ (λ _, None)), ?(bind_ret_run _ Some); cbn [fst snd].
  - apply (notify_keeps _ _ _ in_order_ext). by apply createTicket_step.
  - apply (notify_keeps _ _ _ in_order_ext). by apply updateTicket_step.
  - apply (notify_keeps _ _ _ in_order_ext). by apply deleteTicket_step.
  - rewrite controller_changeTicketStatus_run. cbn zeta. cbn [fst snd].
    pose proof (changeTicketStatus_step i s w Hmono Hord) as Hstep.
    destruct (TicketsModel.changeTicketStatus i s w) as [[|] w1]; cbn [fst snd] in *;
      [|done].
    pose proof (then_notify_same (λ w0, (tt, w0)) w1) as (Ht & Hcl & Hr).
    revert Ht Hcl Hr. run_M. cbn [snd]. intros Ht Hcl Hr.
    by apply (in_order_ext w1).
  - apply (notify_keeps _ _ _ in_order_ext). by apply addComment_step.
  - by rewrite ask_run.
Qed.

(** X14: with a clock that never goes back, the calls of the controller
    keep the time stamps in order: if no ticket was updated before it was
    created, or created after a time the clock has still to give, then
    after any sequence of calls, updates that set [createdAt] by hand
    left out, every ticket still has [createdAt <= updatedAt]. *)
Theorem timestamps_stay_in_order (w : World) (calls : list Call) :
  monotone_clock w → timestamps_in_order w →
  Forall keeps_createdAt calls →
  timestamps_in_order (snd (perform_all calls w))
  ∧ ∀ t, t ∈ tickets (snd (perform_all calls w)) → (createdAt t <= updatedAt t)%Z.
Proof.
  intros Hmono Hord Hcalls.
  assert (H : monotone_clock (snd (perform_all calls w))
              ∧ timestamps_in_order (snd (perform_all calls w))).
  { revert w Hmono Hord.
    induction Hcalls as [|c calls Hc Hcalls IH]; intros w Hmono Hord; [done|].
    rewrite perform_all_cons. cbn [snd].
    destruct (perform_step c w Hc (conj Hmono Hord)) as [Hm1 Ho1].
    by apply IH. }
  destruct H as [_ Ho]. split; [exact Ho|].
  intros t Ht. by destruct (Ho t Ht).
Qed.

End Timestamps.

(** ** The stored copy *)

Section Storage.
Import TicketsModel.

Lemma model_updateTicket_storage i u w :
  isClient (snd (updateTicket i u w)) = isClient w
  ∧ stored_tickets (snd (updateTicket i u w)) = stored_tickets w.
Proof.
  destruct (find_ticket i (tickets w)) as [[k t]|] eqn:Hfind.
  - rewrite (updateTicket_found _ _ _ _ _ Hfind). cbn zeta. by destruct (_ && _).
  - by rewrite updateTicket_absent.
Qed.

Lemma model_addComment_storage i d w :
  isClient (snd (addComment i d w)) = isClient w
  ∧ stored_tickets (snd (addComment i d w)) = stored_tickets w.
Proof.
  destruct (find_ticket i (tickets w)) as [[k t]|] eqn:Hfind.
  - by rewrite (addComment_found _ _ _ _ _ Hfind).
  - by rewrite addComment_absent.
Qed.

Lemma model_changeTicketStatus_storage i s w :
  isClient (snd (changeTicketStatus i s w)) = isClient w
  ∧ stored_tickets (snd (changeTicketStatus i s w)) = stored_tickets w.
Proof.
  rewrite changeTicketStatus_run.
  destruct (find_ticket i (tickets w)) as [[k t]|]; [|done].
  destruct (bool_decide _); [|done]. apply model_updateTicket_storage.
Qed.

Lemma notify_storage w :
  isClient (snd (TicketsController.notify w)) = isClient w
  ∧ stored_tickets (snd (TicketsController.notify w))
    = if isClient w then Some (tickets w) else stored_tickets w.
Proof.
  unfold TicketsController.notify, syncToStorage, TicketsController.call_listeners,
    StorageService.saveToStorage_tickets.
  run_M. destruct (isClient w) eqn:Hc; cbn; by rewrite Hc.
Qed.

Lemma then_notify_storage {A} (m : M A) w :
  isClient (snd (m w)) = isClient w ∧ stored_tickets (snd (m w)) = stored_tickets w →
  isClient (snd ((_ ← m; TicketsController.notify) w)) = isClient w
  ∧ stored_tickets (snd ((_ ← m; TicketsController.notify) w))
    = if isClient w
      then Some (tickets (snd ((_ ← m; TicketsController.notify) w)))
      else stored_tickets w.
Proof.
  intros [Hc Hs]. destruct (then_notify_same m w) as (Ht & _).
  rewrite Ht. run_M. destruct (m w) as [a w1]. cbn [snd] in *.
  destruct (notify_storage w1) as [Hc1 Hs1]. rewrite Hc1, Hs1, Hc.
  by destruct (isClient w).
Qed.

Lemma perform_storage c w :
  isClient (snd (perform c w)) = isClient w
  ∧ stored_tickets (snd (perform c w))
    = if notifying (c, fst (perform c w)) && isClient w
      then Some (tickets (snd (perform c w)))
      else stored_tickets w.
Proof.
  destruct c as [d|i u|i|i s|i d|q]; cbn [perform notifying];
    rewrite ?(bind_ret_run _ (λ _, None)), ?(bind_ret_run _ Some); cbn [fst snd andb].
  - by apply then_notify_storage.
  - apply then_notify_storage, model_updateTicket_storage.
  - by apply then_notify_storage.
  - rewrite controller_changeTicketStatus_run. cbn zeta. cbn [fst snd].
    destruct (model_changeTicketStatus_storage i s w) as [Hc Hs].
    destruct (changeTicketStatus i s w) as [[|] w1]; cbn [fst snd] in *.
    + rewrite bool_decide_eq_true_2 by done. cbn [andb].
      destruct (notify_storage w1) as [Hc1 Hs1].
      destruct (then_notify_same (λ w0, (tt, w0)) w1) as (Ht & _).
      revert Ht. run_M. cbn [snd]. intros Ht.
      rewrite Hc1, Hs1, Ht, Hc, Hs. by destruct (isClient w).
    + by rewrite bool_decide_eq_false_2 by congruence.
  - apply then_notify_storage, model_addComment_storage.
  - by rewrite ask_run.
Qed.

Lemma loadFromStorage_run defaults w :
  loadFromStorage defaults w
  = (tt, set_tickets (if isClient w then default defaults (stored_tickets w)
                      else defaults) w).
Proof.
  unfold loadFromStorage, constructor, StorageService.loadFromStorage_tickets.
  run_M. destruct (isClient w); [|done]. by destruct (stored_tickets w).
Qed.



Lemma perform_all_storage_server calls : ∀ w,
  isClient w = false →
  isClient (snd (perform_all calls w)) = false
  ∧ stored_tickets (snd (perform_all calls w)) = stored_tickets w.
Proof.
  induction calls as [|c calls IH]; intros w Hserver; [done|].
  rewrite perform_all_cons. cbn [snd].
  destruct (perform_storage c w) as [Hc Hs].
  rewrite Hserver, andb_false_r in Hs. rewrite Hserver in Hc.
  destruct (IH _ Hc) as [Hc' Hs']. split; [done|congruence].
Qed.

(** X16: on the server nothing is stored and nothing is loaded: no
    sequence of calls changes the entry, and [TicketsModel.loadFromStorage]
    builds the model from the default tickets whatever the entry holds.
    In the browser it builds it from the default tickets when there is no
    entry, and from the stored tickets otherwise. *)
Theorem loadFromStorage_spec (w : World) (defaults : list Ticket) :
  (isClient w = false →
     tickets (snd (loadFromStorage defaults w)) = defaults
     ∧ ∀ calls, stored_tickets (snd (perform_all calls w)) = stored_tickets w)
  ∧ (isClient w = true → stored_tickets w = None →
     tickets (snd (loadFromStorage defaults w)) = defaults)
  ∧ (∀ ts, isClient w = true → stored_tickets w = Some ts →
     tickets (snd (loadFromStorage defaults w)) = ts).
Proof.
  rewrite loadFromStorage_run. cbn [snd tickets set_tickets]. split_and!.
  - intros Hs. rewrite Hs. split; [done|].
    intros calls. by apply perform_all_storage_server.
  - by intros -> ->.
  - by intros ts -> ->.
Qed.

End Storage.

(** ** Subscriptions *)

Section Subscriptions.
Import TicketsController.

Lemma set_listeners_same w : set_listeners (listeners w) w = w.
Proof. by destruct w. Qed.

Lemma perform_all_invoked calls : ∀ w,
  listeners (snd (perform_all calls w)) = listeners w
  ∧ invoked (snd (perform_all calls w))
    = invoked w
      ++ concat (replicate
                   (length (filter (λ cr, notifying cr = true)
                                   (fst (perform_all calls w))))
                   (listeners w)).
Proof.
  induction calls as [|c calls IH]; intros w.
  - cbn. by rewrite app_nil_r.
  - rewrite perform_all_cons. cbn [fst snd].
    destruct (perform_effect c w) as [Hl Hi].
    destruct (IH (snd (perform c w))) as [IHl IHi].
    split; [congruence|].
    rewrite IHi, Hl, Hi, filter_cons.
    destruct (notifying (c, fst (perform c w))); case_decide; try done.
    + cbn [length replicate concat]. by rewrite app_assoc.
    + by rewrite app_nil_r.
Qed.

Lemma filter_all_ne (l : Listener) (ls : list Listener) :
  l ∉ ls → filter (λ y, y ≠ l) ls = ls.
Proof.
  intros Hl. induction ls as [|x ls IH]; [done|].
  rewrite filter_cons_True by (intros ->; apply Hl; left).
  f_equal. apply IH. intros Hin. apply Hl. by right.
Qed.

(** X17: the listeners are called in the order of their registration.
    A sequence of calls leaves the set of listeners as it is, and what it
    adds to the calls made to listeners is, for each notifying call in
    turn, one round through the listeners from the first subscribed to
    the last. *)
Theorem notified_in_registration_order (w : World) (calls : list Call) :
  listeners (snd (perform_all calls w)) = listeners w
  ∧ invoked (snd (perform_all calls w))
    = invoked w
      ++ concat (replicate
                   (length (filter (λ cr, notifying cr = true)
                                   (fst (perform_all calls w))))
                   (listeners w)).
Proof. apply perform_all_invoked. Qed.

(** X18: subscribing a listener that is not registered puts it last,
    and calling the handle undoes the subscription: the handle returns
    [true] and the world is as before the [subscribe].  Called once more,
    the handle returns [false] and changes nothing. *)
Theorem subscribe_then_unsubscribe (w : World) (l : Listener) :
  l ∉ listeners w →
  listeners (snd (subscribe l w)) = listeners w ++ [l]
  ∧ call_unsubscribe (fst (subscribe l w)) (snd (subscribe l w)) = (true, w)
  ∧ call_unsubscribe (fst (subscribe l w)) w = (false, w).
Proof.
  intros Hl. rewrite subscribe_run. cbn [fst snd].
  rewrite !call_unsubscribe_run. cbn [listeners set_listeners].
  assert (Hadd : Set_add l (listeners w) = listeners w ++ [l]).
  { unfold Set_add. by rewrite decide_False. }
  assert (Hrest : filter (λ y, y ≠ l) (listeners w) = listeners w).
  { apply filter_all_ne. done. }
  rewrite Hadd, filter_app, Hrest.
  rewrite filter_cons_False, filter_nil, app_nil_r by (intros H; by apply H).
  split_and!.
  - done.
  - rewrite bool_decide_eq_true_2.
    + f_equal. destruct w; reflexivity.
    + apply elem_of_app. right. by apply list_elem_of_singleton.
  - rewrite bool_decide_eq_false_2 by done. by rewrite set_listeners_same.
Qed.

Lemma subscribe_then_unsubscribe_witness :
  (8 ∉ listeners sample_world)
  ∧ call_unsubscribe (fst (subscribe 8 sample_world)) (snd (subscribe 8 sample_world))
    = (true, sample_world).
Proof.
  assert (H : 8 ∉ listeners sample_world).
  { intros Hin%list_elem_of_singleton. discriminate. }
  split; [exact H|].
  exact (proj1 (proj2 (subscribe_then_unsubscribe sample_world 8 H))).
Defined.

(** X19: a listener that is not registered, never subscribed or
    unsubscribed since, is not called by any sequence of calls. *)
Theorem unregistered_never_notified (w : World) (l : Listener) (calls : list Call) :
  l ∉ listeners w →
  notifications l (snd (perform_all calls w)) = notifications l w.
Proof.
  intros Hl. destruct (perform_all_effect calls w) as [_ Hn].
  rewrite Hn, (filter_none (λ x, x = l)); [cbn; lia|].
  intros x Hx ->. done.
Qed.

Lemma unregistered_never_notified_witness :
  (8 ∉ listeners sample_world)
  ∧ notifications 8
      (snd (perform_all [ CreateTicket empty_draft; DeleteTicket "ticket_1" ]
                        sample_world))
    = notifications 8 sample_world.
Proof.
  assert (H : 8 ∉ listeners sample_world).
  { intros Hin%list_elem_of_singleton. discriminate. }
  split; [exact H|].
  exact (unregistered_never_notified sample_world 8 _ H).
Defined.

Lemma App_start_run defaults forceUpdate w :
  listeners (snd (Views.App_start defaults forceUpdate w)) = [forceUpdate]
  ∧ invoked (snd (Views.App_start defaults forceUpdate w)) = invoked w
  ∧ tickets (snd (Views.App_start defaults forceUpdate w))
    = tickets (snd (TicketsModel.loadFromStorage defaults w)).
Proof.
  unfold Views.App_start, TicketsController.constructor, subscribe. run_M.
  rewrite loadFromStorage_run. cbn. unfold Set_add.
  by rewrite decide_False by apply not_elem_of_nil.
Qed.

(** X20: the application as it starts.  The controller of [App] has the
    tickets [TicketsModel.loadFromStorage] gives and one listener, the one
    that forces the update; from then on every sequence of calls forces
    one update for each notifying call and none for the others. *)
Theorem App_forces_one_update_per_call
    (w : World) (defaults : list Ticket) (forceUpdate : Listener)
    (calls : list Call) :
  let w0 := snd (Views.App_start defaults forceUpdate w) in
  tickets w0 = tickets (snd (TicketsModel.loadFromStorage defaults w))
  ∧ listeners w0 = [forceUpdate]
  ∧ notifications forceUpdate (snd (perform_all calls w0))
    = notifications forceUpdate w
      + length (filter (λ cr, notifying cr = true) (fst (perform_all calls w0))).
Proof.
  cbn zeta. destruct (App_start_run defaults forceUpdate w) as (Hl & Hi & Ht).
  split_and!; [done|done|].
  destruct (perform_all_effect calls (snd (Views.App_start defaults forceUpdate w)))
    as [_ Hn].
  rewrite Hn, Hl. unfold notifications. rewrite Hi.
  rewrite filter_cons_True, filter_nil by done. cbn [length]. lia.
Qed.

End Subscriptions.

(** ** Elapsed time, search terms and the average *)

Section Display.
Import TicketsModel.

(** X21: [timeAgo] picks the unit by the time elapsed since the stamp:
    under an hour it shows whole minutes, fewer than 60 and negative for a
    stamp ahead of the clock; from an hour to a day whole hours, 1 to 23;
    from a day on whole days, at least 1. *)
Theorem timeAgo_units (w : World) (timestamp : Z) :
  let diff := (clock w (clock_reads w) - timestamp)%Z in
  let shown := fst (Views.timeAgo timestamp w) in
  ((diff < 3600000)%Z →
     shown = pretty (diff / 60000)%Z +:+ "m atrás" ∧ (diff / 60000 < 60)%Z)
  ∧ ((3600000 <= diff < 86400000)%Z →
     shown = pretty (diff / 3600000)%Z +:+ "h atrás"
     ∧ (1 <= diff / 3600000 < 24)%Z)
  ∧ ((86400000 <= diff)%Z →
     shown = pretty (diff / 86400000)%Z +:+ "d atrás" ∧ (1 <= diff / 86400000)%Z).
Proof.
  cbn zeta. unfold Views.timeAgo. run_M. unfold Date_now. cbn [fst snd].
  set (diff := (clock w (clock_reads w) - timestamp)%Z).
  assert (Hmin : (diff / 60000 < 60 ↔ diff < 3600000)%Z).
  { split; intros H.
    - apply Z.nle_gt. intros Hge.
      assert (60 <= diff / 60000)%Z by (apply Z.div_le_lower_bound; lia). lia.
    - apply Z.div_lt_upper_bound; lia. }
  assert (Hhour : (diff / 3600000 < 24 ↔ diff < 86400000)%Z).
  { split; intros H.
    - apply Z.nle_gt. intros Hge.
      assert (24 <= diff / 3600000)%Z by (apply Z.div_le_lower_bound; lia). lia.
    - apply Z.div_lt_upper_bound; lia. }
  split_and!.
  - intros Hd. rewrite bool_decide_eq_true_2 by (by apply Hmin).
    split; [done|by apply Hmin].
  - intros [Hlo Hhi].
    rewrite bool_decide_eq_false_2 by (rewrite Hmin; lia).
    rewrite bool_decide_eq_true_2 by (by apply Hhour).
    split; [done|]. split; [apply Z.div_le_lower_bound; lia|by apply Hhour].
  - intros Hd.
    rewrite bool_decide_eq_false_2 by (rewrite Hmin; lia).
    rewrite bool_decide_eq_false_2 by (rewrite Hhour; lia).
    split; [done|]. apply Z.div_le_lower_bound; lia.
Qed.

Example timeAgo_sample :
  fst (Views.timeAgo 2000 sample_world) = "0m atrás"
  ∧ fst (Views.timeAgo (5000 - 7200000) sample_world) = "2h atrás"
  ∧ fst (Views.timeAgo (5000 - 3 * 86400000) sample_world) = "3d atrás"
  ∧ fst (Views.timeAgo (5000 + 120000) sample_world) = "-2m atrás".
Proof. vm_compute. repeat split. Qed.






Lemma sum_nonneg (ts : list Ticket) : ∀ acc : Z,
  (0 <= acc)%Z →
  (∀ t, t ∈ ts → (createdAt t <= default 0 (resolvedAt t))%Z) →
  (0 <= foldl (λ sum t, sum + (default 0 (resolvedAt t) - createdAt t)) acc ts)%Z.
Proof.
  induction ts as [|t ts IH]; intros acc Hacc Hts; [done|]. cbn.
  apply IH.
  - assert (createdAt t <= default 0 (resolvedAt t))%Z by (apply Hts; left). lia.
  - intros t' Ht'. apply Hts. by right.
Qed.

(** X23: the average resolution time is 0 when no ticket has a stamp, and
    it is not negative when no stamped ticket was resolved before it was
    created. *)
Theorem averageResolutionTime_spec (w : World) :
  ((∀ t, t ∈ tickets w → truthy (resolvedAt t) = false) →
     stat_averageResolutionTime (fst (getStatistics w)) = 0%Q)
  ∧ ((∀ t, t ∈ tickets w → truthy (resolvedAt t) = true →
           (createdAt t <= default 0 (resolvedAt t))%Z) →
     (0 <= stat_averageResolutionTime (fst (getStatistics w)))%Q).
Proof.
  unfold getStatistics. run_M. cbn [fst stat_averageResolutionTime]. split.
  - intros Hnone. rewrite (filter_none (λ t, truthy (resolvedAt t) = true)).
    + done.
    + intros t Ht. rewrite (Hnone t Ht). done.
  - intros Hok. case_bool_decide as Hlen; [|done].
    apply Qle_shift_div_l.
    + unfold Qlt. cbn. lia.
    + assert (Hsum : (0 <= foldl (λ sum t, sum + (default 0 (resolvedAt t) - createdAt t))
                                 0 (filter (λ t, truthy (resolvedAt t) = true)
                                           (tickets w)))%Z).
      { apply sum_nonneg; [done|].
        intros t [Hset Ht]%list_elem_of_filter. by apply Hok. }
      rewrite Qmult_0_l. unfold Qle, inject_Z. cbn [Qnum Qden]. lia.
Qed.

End Display.

(** ** Looking up, starting and clearing *)

Section Startup.
Import TicketsModel.

(** X24: [getTicketById] leaves the collection as it is; it returns [null]
    exactly when no ticket has the id, and otherwise a ticket of the
    collection with that id, the first in the array when several have
    it. *)
Theorem getTicketById_spec (w : World) (i : string) :
  snd (getTicketById i w) = w
  ∧ (fst (getTicketById i w) = None ↔ ∀ t, t ∈ tickets w → id t ≠ i)
  ∧ ∀ t, fst (getTicketById i w) = Some t →
      id t = i
      ∧ ∃ k, tickets w !! k = Some t
             ∧ ∀ j t0, tickets w !! j = Some t0 → id t0 = i → (k ≤ j)%nat.
Proof.
  split_and!.
  - done.
  - by rewrite getTicketById_None, find_ticket_None.
  - intros t [k Hfind]%getTicketById_Some.
    destruct (find_ticket_Some _ _ _ _ Hfind) as (Hk & Hid & Hleast).
    split; [done|]. exists k. split; [done|].
    intros j t0 Hj Hid0. destruct (decide (k ≤ j)%nat) as [|Hlt]; [done|].
    exfalso. apply (Hleast j t0 Hj); [lia|done].
Qed.

Lemma timestamps_stay_in_order_witness :
  monotone_clock sample_world
  ∧ timestamps_in_order sample_world
  ∧ ∀ t, t ∈ tickets (snd (perform_all
                             [ CreateTicket empty_draft;
                               ChangeTicketStatus "ticket_1" resolved;
                               AddComment "ticket_2" sample_comment;
                               DeleteTicket "ticket_3" ]
                             sample_world)) →
         (createdAt t <= updatedAt t)%Z.
Proof.
  assert (Hmono : monotone_clock sample_world).
  { intros n m Hnm. cbn. lia. }
  assert (Hord : timestamps_in_order sample_world).
  { intros t Ht. cbn in Ht.
    repeat (apply elem_of_cons in Ht as [->|Ht]; [cbn; split; [lia|intros; lia]|]).
    by apply elem_of_nil in Ht. }
  split; [exact Hmono|]. split; [exact Hord|].
  refine (proj2 (timestamps_stay_in_order sample_world _ Hmono Hord _)).
  repeat constructor.
Defined.

Lemma constructor_defaults (defaults : list Ticket) (w : World) :
  tickets (snd (constructor defaults None w)) = defaults
  ∧ clock (snd (constructor defaults None w)) = clock w
  ∧ clock_reads (snd (constructor defaults None w)) = clock_reads w.
Proof. done. Qed.

Lemma DEFAULT_TICKETS_stamps (w : World) :
  ((λ t, (createdAt t, updatedAt t, resolvedAt t)) <$> fst (DEFAULT_TICKETS w))
  = [ ((clock w (clock_reads w) - 2 * 60 * 60 * 1000)%Z,
       (clock w (1 + clock_reads w)%nat - 30 * 60 * 1000)%Z, None);
      ((clock w (3 + clock_reads w)%nat - 24 * 60 * 60 * 1000)%Z,
       (clock w (4 + clock_reads w)%nat - 24 * 60 * 60 * 1000)%Z, None);
      ((clock w (5 + clock_reads w)%nat - 7 * 24 * 60 * 60 * 1000)%Z,
       (clock w (6 + clock_reads w)%nat - 1 * 24 * 60 * 60 * 1000)%Z,
       Some (clock w (7 + clock_reads w)%nat - 1 * 24 * 60 * 60 * 1000)%Z) ]
  ∧ clock (snd (DEFAULT_TICKETS w)) = clock w
  ∧ clock_reads (snd (DEFAULT_TICKETS w)) = (9 + clock_reads w)%nat.
Proof. split_and!; reflexivity. Qed.

(** X25: started from the default tickets under a clock that never goes
    back, the time stamps are in order: the model built from
    [DEFAULT_TICKETS] has no ticket updated or resolved before it was
    created, or created after a time the clock has still to give. *)
Theorem default_tickets_in_order (w : World) :
  monotone_clock w →
  let defaults := fst (DEFAULT_TICKETS w) in
  let w' := snd (constructor defaults None (snd (DEFAULT_TICKETS w))) in
  tickets w' = defaults
  ∧ monotone_clock w' ∧ timestamps_in_order w'
  ∧ ∀ t r, t ∈ tickets w' → resolvedAt t = Some r → (createdAt t <= r)%Z.
Proof.
  intros Hmono. cbn zeta.
  destruct (DEFAULT_TICKETS_stamps w) as (Hstamps & Hclock & Hreads).
  destruct (constructor_defaults (fst (DEFAULT_TICKETS w)) (snd (DEFAULT_TICKETS w)))
    as (Hts & Hcl & Hrd).
  rewrite Hclock in Hcl. rewrite Hreads in Hrd.
  assert (Hcases : ∀ t, t ∈ fst (DEFAULT_TICKETS w) →
            (createdAt t <= updatedAt t)%Z
            ∧ (∀ n : nat, (9 + clock_reads w ≤ n)%nat → (createdAt t <= clock w n)%Z)
            ∧ ∀ r, resolvedAt t = Some r → (createdAt t <= r)%Z).
  { intros t Ht.
    apply (list_elem_of_fmap_2 (λ t, (createdAt t, updatedAt t, resolvedAt t))) in Ht.
    rewrite Hstamps in Ht.
    pose proof (Hmono (clock_reads w) (1 + clock_reads w)%nat).
    pose proof (Hmono (3 + clock_reads w)%nat (4 + clock_reads w)%nat).
    pose proof (Hmono (5 + clock_reads w)%nat (6 + clock_reads w)%nat).
    pose proof (Hmono (5 + clock_reads w)%nat (7 + clock_reads w)%nat).
    repeat (apply elem_of_cons in Ht as [Ht|Ht];
            [injection Ht as Hc Hu Hr; rewrite Hc, Hu, Hr;
             split_and!;
             [cbn [Nat.add] in *; lia
             |
             |intros r' Hr'; try discriminate; injection Hr' as <-;
              cbn [Nat.add] in *; lia];
             intros n Hn;
             pose proof (Hmono (clock_reads w) n);
             pose proof (Hmono (3 + clock_reads w)%nat n);
             pose proof (Hmono (5 + clock_reads w)%nat n);
             cbn [Nat.add] in *; lia|]).
    by apply elem_of_nil in Ht. }
  split_and!.
  - exact Hts.
  - unfold monotone_clock. rewrite Hcl. exact Hmono.
  - intros t Ht. rewrite Hts in Ht. rewrite Hcl, Hrd.
    destruct (Hcases t Ht) as (H1 & H2 & _). by split.
  - intros t r Ht Hr. rewrite Hts in Ht.
    destruct (Hcases t Ht) as (_ & _ & H3). by apply H3.
Qed.

Lemma default_tickets_in_order_witness :
  monotone_clock sample_world
  ∧ length (tickets (snd (constructor (fst (DEFAULT_TICKETS sample_world)) None
                            (snd (DEFAULT_TICKETS sample_world))))) = 3
  ∧ timestamps_in_order
      (snd (constructor (fst (DEFAULT_TICKETS sample_world)) None
              (snd (DEFAULT_TICKETS sample_world)))).
Proof.
  assert (Hmono : monotone_clock sample_world).
  { intros n m Hnm. cbn. lia. }
  split; [exact Hmono|]. split; [reflexivity|].
  exact (proj1 (proj2 (proj2 (default_tickets_in_order sample_world Hmono)))).
Defined.


End Startup.
